(** * Trie.h and RemapPlugins.cc: a shallow embedding

    The first part embeds [Trie<T>] of [include/tscore/Trie.h], the 256-way
    trie over 8-bit string keys with ranked values; the second part embeds
    [RemapPlugins::run_plugin] and [RemapPlugins::run_single_remap] of
    [proxy/http/remap/RemapPlugins.cc].

    Conventions.  A C [int] or [char] is a [Z].  A nullable pointer [T *] is
    an [option]; the pointee type [T] itself stands for the non-null
    pointers.  A [const char *key] is [None] for [nullptr] and [Some buf]
    for a pointer to the characters [buf], the whole array that may be read
    through it.  A function whose behaviour is undefined on some arguments
    (reading [key[i]] past the end of the array) returns [None] there.  The
    value handed to [Insert] is a non-null pointer: [Insert] links it into
    the value list, and [Search] reports a miss by [nullptr]. *)

From Stdlib Require Import ZArith Lia Ascii String.
From stdpp Require Import base option list.

Local Open Scope Z_scope.
Local Open Scope list_scope.

(** ** Integers *)

(** Conversion of a [size_t] to [int], as in [key_len = strlen(key)]. *)
Definition to_int (z : Z) : Z := (z + 2147483648) `mod` 4294967296 - 2147483648.

(** [strlen]: the index of the first NUL character; the string has to be
    terminated inside the array. *)
Fixpoint strlen (buf : list Z) : option Z :=
  match buf with
  | [] => None
  | c :: buf' => if c =? 0 then Some 0 else n ← strlen buf'; Some (1 + n)
  end.

Module Trie.
Section Trie.

Context {T : Type}.

(** ** Data *)

(** [class Node]: [value], [occupied], [rank] and the array [children] of
    [N_NODE_CHILDREN] nullable pointers to the owned child nodes. *)
#[local] Unset Elimination Schemes.
Inductive Node : Type :=
  mkNode { value : option T; occupied : bool; rank : Z; children : list (option Node) }.
#[local] Set Elimination Schemes.

Definition N_NODE_CHILDREN : nat := 256.

(** [Node::Clear]. *)
Definition Node_Clear : Node :=
  {| value := None; occupied := false; rank := 0; children := replicate N_NODE_CHILDREN None |}.

(** The slot of a [char]: [static_cast<unsigned char>(index)]. *)
Definition slot (index : Z) : nat := Z.to_nat (index `mod` 256).

(** [Node::GetChild]. *)
Definition GetChild (n : Node) (index : Z) : option Node :=
  mjoin (children n !! slot index).

(** The write [children[static_cast<unsigned char>(index)] = child]. *)
Definition set_child (n : Node) (index : Z) (child : Node) : Node :=
  {| value := value n; occupied := occupied n; rank := rank n;
     children := <[slot index := Some child]> (children n) |}.

(** Modelled from the spec: [Queue<T>] of [tscore/List.h], which is not among
    the sources.  The value list is "an insertion-ordered sequence of all
    stored value pointers": [enqueue] appends, [pop] takes the oldest entry
    and gives [nullptr] on the empty queue, [empty] tests for no entry. *)
Definition Queue : Type := list T.

Definition enqueue (q : Queue) (e : T) : Queue := q ++ [e].

Definition pop (q : Queue) : option T * Queue :=
  match q with
  | [] => (None, [])
  | e :: q' => (Some e, q')
  end.

Definition empty (q : Queue) : bool :=
  match q with
  | [] => true
  | _ :: _ => false
  end.

(** [class Trie]: the root node, held by value, and the value list. *)
Record Trie : Type := mkTrie { m_root : Node; m_value_list : Queue }.

(** The constructor [Trie() { m_root.Clear(); }]. *)
Definition Trie_new : Trie := {| m_root := Node_Clear; m_value_list := [] |}.

(** [Trie::Empty]. *)
Definition Empty (t : Trie) : bool := empty (m_value_list t).

(** ** Arguments *)

(** [Trie::_CheckArgs], giving the new [key_len]. *)
Definition _CheckArgs (key : option (list Z)) (key_len : Z) : option Z :=
  match key with
  | None => Some 0
  | Some buf => if key_len =? -1 then n ← strlen buf; Some (to_int n) else Some key_len
  end.

(** The characters that may be read through [key]: none through [nullptr]. *)
Definition key_chars (key : option (list Z)) : list Z := default [] key.

(** ** Insert *)

(** The end of [Insert], at the node the walk stopped on: the duplicate test
    and the three stores.  The flag is the value [Insert] returns. *)
Definition Insert_store (curr_node : Node) (v : T) (rk : Z) : Node * bool :=
  if occupied curr_node then (curr_node, false)
  else ({| value := Some v; occupied := true; rank := rk; children := children curr_node |}, true).

(** The inner loop [while (i < key_len)] of [Insert], which allocates the
    missing nodes; [key] is the array from index [i] on.  The result is
    [curr_node] as it is when [Insert] returns. *)
Fixpoint Insert_alloc (key : list Z) (key_len i : Z) (curr_node : Node) (v : T) (rk : Z)
  : option (Node * bool) :=
  if i <? key_len then
    match key with
    | [] => None
    | c :: key' =>
        '(child, ok) ← Insert_alloc key' key_len (i + 1) Node_Clear v rk;
        Some (set_child curr_node c child, ok)
    end
  else Some (Insert_store curr_node v rk).

(** The loop [while (true)] of [Insert]; [key] is the array from index [i]
    on. *)
Fixpoint Insert_walk (key : list Z) (key_len i : Z) (curr_node : Node) (v : T) (rk : Z)
  : option (Node * bool) :=
  if i =? key_len then Some (Insert_store curr_node v rk)
  else
    match key with
    | [] => None
    | c :: key' =>
        match GetChild curr_node c with
        | None => Insert_alloc key key_len i curr_node v rk
        | Some next_node =>
            '(next_node', ok) ← Insert_walk key' key_len (i + 1) next_node v rk;
            Some (set_child curr_node c next_node', ok)
        end
    end.

(** [Trie::Insert]: the returned flag and the trie afterwards. *)
Definition Insert (t : Trie) (key : option (list Z)) (v : T) (rk : Z) (key_len : Z)
  : option (bool * Trie) :=
  key_len ← _CheckArgs key key_len;
  r ← Insert_walk (key_chars key) key_len 0 (m_root t) v rk;
  let (root, ok) := r : Node * bool in
  Some (ok, {| m_root := root;
               m_value_list := if ok then enqueue (m_value_list t) v else m_value_list t |}).

(** ** Search *)

(** The update of [found_node] at a visited node. *)
Definition Search_visit (found_node : option Node) (curr_node : Node) : option Node :=
  if occupied curr_node then
    match found_node with
    | None => Some curr_node
    | Some f => if rank curr_node <=? rank f then Some curr_node else found_node
    end
  else found_node.

(** The loop [while (curr_node)] of [Search]; [key] is the array from index
    [i] on.  The result is [found_node] after the loop. *)
Fixpoint Search_walk (key : list Z) (key_len i : Z) (found_node : option Node) (curr_node : Node)
  : option (option Node) :=
  let found_node := Search_visit found_node curr_node in
  if i =? key_len then Some found_node
  else
    match key with
    | [] => None
    | c :: key' =>
        match GetChild curr_node c with
        | None => Some found_node
        | Some next_node => Search_walk key' key_len (i + 1) found_node next_node
        end
    end.

(** [Trie::Search]: the returned pointer. *)
Definition Search (t : Trie) (key : option (list Z)) (key_len : Z) : option (option T) :=
  key_len ← _CheckArgs key key_len;
  found_node ← Search_walk (key_chars key) key_len 0 None (m_root t);
  Some (match found_node with
        | Some f => value f
        | None => None
        end).

(** ** Clear *)

(** [Trie::_Clear]: the number of nodes it hands to [ats_free]. *)
Fixpoint _Clear (node : Node) : nat :=
  list_sum (map (λ child, match child with
                          | Some c => S (_Clear c)
                          | None => O
                          end) (children node)).

(** The loop [while (nullptr != (iter = m_value_list.pop())) delete iter] of
    [Clear]: the queue left and the pointers deleted, oldest first. *)
Fixpoint Clear_drain (q : Queue) : Queue * list T :=
  match q with
  | [] => (q, [])
  | iter :: q' => let '(q'', del) := Clear_drain q' in (q'', iter :: del)
  end.

(** The effects of one call of [Clear]. *)
Record Cleared : Type :=
  mkCleared { cleared_trie : Trie; deleted : list T; freed : nat }.

(** [Trie::Clear]. *)
Definition Clear (t : Trie) : Cleared :=
  let '(q, del) := Clear_drain (m_value_list t) in
  {| cleared_trie := {| m_root := Node_Clear; m_value_list := q |};
     deleted := del;
     freed := _Clear (m_root t) |}.

(** ** Keys, paths and stored values *)

(** The key that well-formed arguments stand for: the empty key for
    [nullptr], the characters before the terminator when [key_len] is
    defaulted to [-1] (their number has to fit an [int]), and the first
    [key_len] characters of the array otherwise.  Other arguments stand for
    no key. *)
Definition key_of (key : option (list Z)) (key_len : Z) : option (list Z) :=
  match key with
  | None => Some []
  | Some buf =>
      if key_len =? -1 then
        n ← strlen buf;
        if n <? 2147483648 then Some (take (Z.to_nat n) buf) else None
      else if (0 <=? key_len) && (key_len <=? Z.of_nat (length buf))
           then Some (take (Z.to_nat key_len) buf)
           else None
  end.

(** The node at the end of the path of a key, if the trie has that path. *)
Fixpoint find_node (n : Node) (k : list Z) : option Node :=
  match k with
  | [] => Some n
  | c :: k' => child ← GetChild n c; find_node child k'
  end.

(** A key is stored when its path ends in an occupied node. *)
Definition stored (t : Trie) (k : list Z) : bool :=
  match find_node (m_root t) k with
  | Some n => occupied n
  | None => false
  end.

(** No stored proper prefix of the key outranks [rk]: every occupied node on
    the path of the key, short of its end, has a rank of [rk] or more. *)
Fixpoint prefix_ranks_ge (n : Node) (k : list Z) (rk : Z) : bool :=
  match k with
  | [] => true
  | c :: k' =>
      implb (occupied n) (rk <=? rank n)
      && match GetChild n c with
         | Some child => prefix_ranks_ge child k' rk
         | None => true
         end
  end.

(** The nodes on the path of a key, root first, as far as the trie has
    them. *)
Fixpoint visited (n : Node) (k : list Z) : list Node :=
  n :: match k with
       | [] => []
       | c :: k' =>
           match GetChild n c with
           | Some child => visited child k'
           | None => []
           end
       end.

(** The candidate rule in the words of the specification: the first occupied
    node becomes the candidate; a later occupied node replaces the candidate
    exactly when its rank is less than or equal to the rank of the
    candidate. *)
Definition candidate_rule (candidate : option Node) (n : Node) : option Node :=
  match candidate with
  | None => if occupied n then Some n else None
  | Some c => if occupied n && (rank n <=? rank c) then Some n else Some c
  end.

(** The pointer [Search] returns for a final candidate. *)
Definition found_value (found_node : option Node) : option T :=
  match found_node with
  | Some f => value f
  | None => None
  end.

(** The insertion of a key along its path, on the characters of the key
    alone: a missing child stands for a fresh node. *)
Fixpoint insert_key (n : Node) (k : list Z) (v : T) (rk : Z) : Node * bool :=
  match k with
  | [] => Insert_store n v rk
  | c :: k' =>
      let (child, ok) := insert_key (default Node_Clear (GetChild n c)) k' v rk in
      (set_child n c child, ok)
  end.

(** The shape of the nodes: every node has its [N_NODE_CHILDREN] slots, and
    an occupied node holds a non-null value. *)
Fixpoint wf_node (n : Node) : bool :=
  Nat.eqb (length (children n)) N_NODE_CHILDREN
  && implb (occupied n) (bool_decide (is_Some (value n)))
  && forallb (λ child, match child with
                       | Some c => wf_node c
                       | None => true
                       end) (children n).

(** The values held by the occupied nodes below and at a node. *)
Fixpoint node_values (n : Node) : list T :=
  (if occupied n then option_list (value n) else [])
  ++ concat (map (λ child, match child with
                           | Some c => node_values c
                           | None => []
                           end) (children n)).

(** The values held in the subtree of a slot. *)
Definition child_values (child : option Node) : list T :=
  match child with
  | Some c => node_values c
  | None => []
  end.

(** The tries a client can build: from the constructor, by [Insert] and
    [Clear]. *)
Inductive reachable : Trie → Prop :=
  | reachable_new : reachable Trie_new
  | reachable_Insert t key v rk key_len ok t' :
      reachable t → Insert t key v rk key_len = Some (ok, t') → reachable t'
  | reachable_Clear t :
      reachable t → reachable (cleared_trie (Clear t)).

(** A client that stores entries one after the other, each under its
    NUL-terminated key, and goes on only when [Insert] returned [true]. *)
Fixpoint Insert_all (t : Trie) (entries : list (option (list Z) * T * Z)) : option Trie :=
  match entries with
  | [] => Some t
  | (key, v, rk) :: entries' =>
      match Insert t key v rk (-1) with
      | Some (true, t') => Insert_all t' entries'
      | _ => None
      end
  end.

(** What the walk of [Insert] below a node [n] keeps of the invariant: the
    node [r.1] it leaves is well-shaped and holds the values that [n] held,
    and [v] as well when the flag [r.2] says that it was stored. *)
Definition insert_inv (n : Node) (r : Node * bool) (v : T) : Prop :=
  wf_node r.1 = true ∧ node_values r.1 ≡ₚ (if r.2 then [v] else []) ++ node_values n.

(** The invariant of the class: well-shaped nodes, and a value list that
    holds the values of the occupied nodes, each as often as it is
    stored. *)
Definition trie_inv (t : Trie) : Prop :=
  wf_node (m_root t) = true ∧ m_value_list t ≡ₚ node_values (m_root t).

End Trie.
Arguments Node : clear implicits.
Arguments Trie : clear implicits.
Arguments Queue : clear implicits.
Arguments Cleared : clear implicits.

(** A string literal as a C string: its characters and the terminator. *)
Definition c_str (s : string) : option (list Z) :=
  Some (map (λ a, Z.of_N (Ascii.N_of_ascii a)) (String.list_ascii_of_string s) ++ [0]).

End Trie.

Module RemapPlugins.

(** Modelled from the spec: the enumeration [TSRemapStatus] of the plugin
    interface, whose header is not among the sources.  "The plugin returns
    one of four status codes: NO_REMAP, DID_REMAP, DID_REMAP_STOP,
    NO_REMAP_STOP"; the codes cross the interface as integers, and the four
    enumerators are taken as parameters. *)
Class TSRemapStatus : Type := {
  TSREMAP_NO_REMAP : Z;
  TSREMAP_DID_REMAP : Z;
  TSREMAP_NO_REMAP_STOP : Z;
  TSREMAP_DID_REMAP_STOP : Z
}.

(** The enumerators are four different codes, none of them negative. *)
Definition codes_ok `{TSRemapStatus} : Prop :=
  NoDup [TSREMAP_NO_REMAP; TSREMAP_DID_REMAP; TSREMAP_NO_REMAP_STOP; TSREMAP_DID_REMAP_STOP]
  ∧ 0 <= TSREMAP_NO_REMAP ∧ 0 <= TSREMAP_DID_REMAP
  ∧ 0 <= TSREMAP_NO_REMAP_STOP ∧ 0 <= TSREMAP_DID_REMAP_STOP.

(** Modelled from the spec: [URL::string_get] of the header classes, not
    among the sources: the text of a URL, a fresh non-null string ("captures
    the request's current URL as the redirect target"). *)
Class URLString (URL : Type) : Type := string_get : URL → list Z.

Section RemapPlugins.

Context `{TSRemapStatus} {URL : Type} `{!URLString URL}.

(** ** Data *)

(** [TSRemapRequestInfo], as far as a plugin can change the request through
    it: [requestUrl] is a handle on the URL of the request, which the plugin
    may rewrite in place, and [redirect] is the flag it may set. *)
Record TSRemapRequestInfo : Type := mkRri { requestUrl : URL; redirect : Z }.

(** [RemapPluginInst], by its [doRemap]: the status it returns and the
    request info as it leaves it. *)
Definition RemapPluginInst : Type := TSRemapRequestInfo → Z * TSRemapRequestInfo.

(** One call of [doRemap], as the history of the chain records it: the
    status returned and the [redirect] flag left. *)
Record Invocation : Type := mkInvocation { inv_retcode : Z; inv_redirect : Z }.

(** Modelled from the spec: [url_mapping] and [url_rewrite_remap_request],
    not among the sources.  The route carries the "ordered list of plugin
    instances" and "a base from→to rewrite rule", here the effect of the
    base rewrite on the URL of the request. *)
Record url_mapping : Type := mkMapping {
  plugin_inst_list : list RemapPluginInst;
  url_rewrite_remap_request : URL → URL
}.

(** "If a plugin exists at cursor": the plugin at the index, [nullptr] past
    the end of the list. *)
Definition get_plugin_instance (map : url_mapping) (index : nat) : option RemapPluginInst :=
  plugin_inst_list map !! index.

Definition plugin_instance_count (map : url_mapping) : nat := length (plugin_inst_list map).

(** [class RemapPlugins] with the fields of the transaction state [_s] it
    reads and writes.  [_cur] and [_rewritten] are declared in
    RemapPlugins.h, not among the sources; they count calls and are natural
    numbers here.  [history] is not a field of the class: it lists the calls
    of [doRemap] made so far, oldest first. *)
Record RemapPlugins : Type := mkRemapPlugins {
  _cur : nat;
  _rewritten : nat;
  _request_url : URL;
  url_map : url_mapping;
  remap_redirect : option (list Z);
  os_response_plugin_inst : option RemapPluginInst;
  history : list Invocation
}.

Definition set_cur (rp : RemapPlugins) (n : nat) : RemapPlugins :=
  mkRemapPlugins n (_rewritten rp) (_request_url rp) (url_map rp) (remap_redirect rp)
    (os_response_plugin_inst rp) (history rp).

Definition set_rewritten (rp : RemapPlugins) (n : nat) : RemapPlugins :=
  mkRemapPlugins (_cur rp) n (_request_url rp) (url_map rp) (remap_redirect rp)
    (os_response_plugin_inst rp) (history rp).

Definition set_request_url (rp : RemapPlugins) (u : URL) : RemapPlugins :=
  mkRemapPlugins (_cur rp) (_rewritten rp) u (url_map rp) (remap_redirect rp)
    (os_response_plugin_inst rp) (history rp).

Definition set_remap_redirect (rp : RemapPlugins) (r : option (list Z)) : RemapPlugins :=
  mkRemapPlugins (_cur rp) (_rewritten rp) (_request_url rp) (url_map rp) r
    (os_response_plugin_inst rp) (history rp).

Definition set_os_response_plugin_inst (rp : RemapPlugins) (p : option RemapPluginInst)
  : RemapPlugins :=
  mkRemapPlugins (_cur rp) (_rewritten rp) (_request_url rp) (url_map rp) (remap_redirect rp)
    p (history rp).

Definition record_invocation (rp : RemapPlugins) (i : Invocation) : RemapPlugins :=
  mkRemapPlugins (_cur rp) (_rewritten rp) (_request_url rp) (url_map rp) (remap_redirect rp)
    (os_response_plugin_inst rp) (history rp ++ [i]).

(** The executor before its first step, for a route and a request. *)
Definition RemapPlugins_new (map : url_mapping) (request_url : URL) : RemapPlugins :=
  mkRemapPlugins 0 0 request_url map None None [].

(** ** The two functions *)

(** [RemapPlugins::run_plugin]: the status returned and the state
    afterwards. *)
Definition run_plugin (rp : RemapPlugins) (plugin : RemapPluginInst) : Z * RemapPlugins :=
  let rri := {| requestUrl := _request_url rp; redirect := 0 |} in
  let rp := if Nat.eqb (_cur rp) 0 then set_os_response_plugin_inst rp (Some plugin) else rp in
  let '(plugin_retcode, rri) := plugin rri in
  let rp := record_invocation (set_request_url rp (requestUrl rri))
              {| inv_retcode := plugin_retcode; inv_redirect := redirect rri |} in
  let plugin_retcode := if plugin_retcode <? 0 then TSREMAP_NO_REMAP else plugin_retcode in
  let rp :=
    if ((TSREMAP_DID_REMAP =? plugin_retcode) || (TSREMAP_DID_REMAP_STOP =? plugin_retcode))
       && negb (redirect rri =? 0)
    then set_remap_redirect rp (Some (string_get (_request_url rp)))
    else rp in
  (plugin_retcode, rp).

(** [RemapPlugins::run_single_remap]: the flag returned ([true] for done)
    and the state afterwards. *)
Definition run_single_remap (rp : RemapPlugins) : bool * RemapPlugins :=
  let map := url_map rp in
  let plugin := get_plugin_instance map (_cur rp) in
  let rp :=
    if Nat.eqb 0 (_cur rp)
    then set_request_url rp (url_rewrite_remap_request map (_request_url rp))
    else rp in
  let '(plugin_retcode, rp) :=
    match plugin with
    | Some p => run_plugin rp p
    | None => (TSREMAP_NO_REMAP, rp)
    end in
  let rp := set_cur rp (S (_cur rp)) in
  match remap_redirect rp with
  | None =>
      let rp :=
        if (TSREMAP_DID_REMAP_STOP =? plugin_retcode) || (TSREMAP_DID_REMAP =? plugin_retcode)
        then set_rewritten rp (S (_rewritten rp))
        else rp in
      if (TSREMAP_NO_REMAP_STOP =? plugin_retcode) || (TSREMAP_DID_REMAP_STOP =? plugin_retcode)
      then (true, rp)
      else if Nat.leb (plugin_instance_count map) (_cur rp) then (true, rp)
      else (false, rp)
  | Some _ => (true, rp)
  end.

(** The request info a plugin called from the state [rp] is given by
    [run_single_remap]: the URL of the request, after the base rewrite of the
    route when this is the first step, and a cleared [redirect] flag. *)
Definition plugin_input (rp : RemapPlugins) : TSRemapRequestInfo :=
  {| requestUrl := if Nat.eqb 0 (_cur rp)
                   then url_rewrite_remap_request (url_map rp) (_request_url rp)
                   else _request_url rp;
     redirect := 0 |}.

(** The status as [run_plugin] passes it on. *)
Definition normalized (plugin_retcode : Z) : Z :=
  if plugin_retcode <? 0 then TSREMAP_NO_REMAP else plugin_retcode.

(** An invocation whose returned status says that the plugin rewrote the
    request, and one that left the [redirect] flag clear. *)
Definition did_remap (i : Invocation) : bool :=
  (inv_retcode i =? TSREMAP_DID_REMAP) || (inv_retcode i =? TSREMAP_DID_REMAP_STOP).

Definition no_redirect (i : Invocation) : bool := inv_redirect i =? 0.

(** ** The driver *)

(** The driver calls [run_single_remap] again as long as it returns [false].
    [chain rp0 rp zret]: some call of a chain started in state [rp0] has
    returned [zret] and left the state [rp]. *)
Inductive chain (rp0 : RemapPlugins) : RemapPlugins → bool → Prop :=
  | chain_first :
      chain rp0 (run_single_remap rp0).2 (run_single_remap rp0).1
  | chain_next rp :
      chain rp0 rp false →
      chain rp0 (run_single_remap rp).2 (run_single_remap rp).1.

(** The flags the first [n] calls return when the driver keeps calling, and
    the state they leave. *)
Fixpoint run_calls (n : nat) (rp : RemapPlugins) : list bool * RemapPlugins :=
  match n with
  | O => ([], rp)
  | S n' =>
      let '(zret, rp') := run_single_remap rp in
      let '(zrets, rp'') := run_calls n' rp' in
      (zret :: zrets, rp'')
  end.

End RemapPlugins.
Arguments TSRemapRequestInfo : clear implicits.
Arguments Invocation : clear implicits.
Arguments RemapPluginInst : clear implicits.
Arguments url_mapping : clear implicits.
Arguments RemapPlugins : clear implicits.

(** The enumerators as the released plugin interface numbers them. *)
#[local] Instance released_codes : TSRemapStatus := {|
  TSREMAP_NO_REMAP := 0;
  TSREMAP_DID_REMAP := 1;
  TSREMAP_NO_REMAP_STOP := 2;
  TSREMAP_DID_REMAP_STOP := 3
|}.

(** A URL kept as its text. *)
#[local] Instance text_url : URLString (list Z) := λ u, u.

End RemapPlugins.

(** * Example data *)

Module Examples.
Import Trie.

(** Tries of routes numbered 1, 2, ...: one with the key "a", one with the
    keys "a" and "ab" and one with the empty key, stored through a null key
    pointer, and "a". *)
Definition one_key (rk_a : Z) : Trie nat :=
  default Trie_new (Insert_all Trie_new [(c_str "a", 1%nat, rk_a)]).

Definition two_keys (rk_a rk_ab : Z) : Trie nat :=
  default Trie_new (Insert_all Trie_new [(c_str "a", 1%nat, rk_a); (c_str "ab", 2%nat, rk_ab)]).

Definition root_key : Trie nat :=
  default Trie_new (Insert_all Trie_new [(None, 7%nat, 3); (c_str "a", 1%nat, 1)]).

Import RemapPlugins.

(** Plugins on URLs kept as text, under the released status codes: one that
    answers with a status and a [redirect] flag and leaves the URL alone, and
    one that also appends a character to the URL. *)
Definition answers (status flag : Z) : RemapPluginInst (list Z) :=
  λ rri, (status, {| requestUrl := requestUrl rri; redirect := flag |}).

Definition appends (c status flag : Z) : RemapPluginInst (list Z) :=
  λ rri, (status, {| requestUrl := requestUrl rri ++ [c]; redirect := flag |}).

(** A route with the given plugins whose base rewrite puts "/t" in front of
    the URL. *)
Definition route (plugins : list (RemapPluginInst (list Z))) : url_mapping (list Z) :=
  {| plugin_inst_list := plugins; url_rewrite_remap_request := λ u, [47; 116] ++ u |}.

(** The executor at the start of a chain whose first plugin rewrites and
    whose second plugin rewrites, asks to stop and redirects. *)
Definition rewrite_then_redirect : RemapPlugins (list Z) :=
  RemapPlugins_new (route [answers 1 0; answers 3 1; answers 1 0]) [47; 97].

End Examples.

(** * Entries *)

Module TrieEntries.
Section TrieEntries.

Import Trie.
Context {T : Type}.

(** What the trie holds under a key: the value pointer and the rank of the
    node at the end of the key's path, when there is such a node and it is
    occupied. *)
Definition entry_at (n : Node T) (k : list Z) : option (option T * Z) :=
  m ← find_node n k;
  if occupied m then Some (value m, rank m) else None.

Definition entry (t : Trie T) (k : list Z) : option (option T * Z) :=
  entry_at (m_root t) k.

(** The key as the trie indexes it: every [char] as an [unsigned char]. *)
Definition key_bytes (k : list Z) : list nat := slot <$> k.

(** What [Search] reads of a node: whether it is occupied, its rank and its
    value. *)
Definition node_head (n : Node T) : bool * Z * option T := (occupied n, rank n, value n).

(** The nodes [_Clear] frees for one slot of a node: the child with the
    nodes below it. *)
Definition slot_nodes (child : option (Node T)) : nat :=
  match child with
  | Some c => S (_Clear c)
  | None => O
  end.

End TrieEntries.
End TrieEntries.

(** * Facts about the trie *)

Section TrieFacts.

Import Trie.
Context {T : Type}.
Implicit Types (n child : Node T) (t : Trie T) (k : list Z) (v : T).

(** ** Nodes and their children *)

Lemma Node_eta n : mkNode (value n) (occupied n) (rank n) (children n) = n.
Proof. by destruct n. Qed.

Lemma slot_lt c : (slot c < N_NODE_CHILDREN)%nat.
Proof.
  unfold slot, N_NODE_CHILDREN.
  pose proof (Z.mod_pos_bound c 256). lia.
Qed.

Lemma N_NODE_CHILDREN_eq : N_NODE_CHILDREN = 256%nat.
Proof. reflexivity. Qed.

#[local] Opaque N_NODE_CHILDREN.

Lemma GetChild_Node_Clear c : GetChild (T:=T) Node_Clear c = None.
Proof.
  unfold GetChild, Node_Clear; simpl.
  rewrite lookup_replicate_2; [done | apply slot_lt].
Qed.

Lemma GetChild_lookup n c child :
  GetChild n c = Some child ↔ children n !! slot c = Some (Some child).
Proof.
  unfold GetChild. destruct (children n !! slot c) as [[?|]|]; simpl; naive_solver.
Qed.

Lemma GetChild_set_child n c child :
  length (children n) = N_NODE_CHILDREN →
  GetChild (set_child n c child) c = Some child.
Proof.
  intros Hlen. apply GetChild_lookup; simpl.
  apply list_lookup_insert_eq. rewrite Hlen. apply slot_lt.
Qed.

Lemma set_child_same n c child : GetChild n c = Some child → set_child n c child = n.
Proof.
  intros Hc%GetChild_lookup. unfold set_child.
  rewrite list_insert_id; [apply Node_eta | done].
Qed.

Lemma wf_node_unfold n :
  wf_node n = true ↔
    length (children n) = N_NODE_CHILDREN
    ∧ (occupied n = true → is_Some (value n))
    ∧ ∀ c child, GetChild n c = Some child → wf_node child = true.
Proof.
  destruct n as [val occ rk ch]; simpl.
  rewrite !andb_true_iff, Nat.eqb_eq, forallb_forall.
  split.
  - intros [[Hlen Hval] Hch]. split_and!; [done | |].
    + intros ->. simpl in Hval. by apply bool_decide_eq_true in Hval.
    + intros c child Hc%GetChild_lookup. simpl in Hc.
      apply (Hch (Some child)). apply list_elem_of_In. by eapply list_elem_of_lookup_2.
  - intros (Hlen & Hval & Hch). split_and!; [done | |].
    + destruct occ; [|done]. simpl. apply bool_decide_eq_true. by apply Hval.
    + intros [child|] Hin; [|done].
      apply list_elem_of_In, list_elem_of_lookup in Hin as [i Hi].
      assert (i < N_NODE_CHILDREN)%nat as Hlt
        by (rewrite <- Hlen; by eapply lookup_lt_Some).
      apply (Hch (Z.of_nat i)). apply GetChild_lookup; simpl.
      unfold slot. rewrite Z.mod_small, Nat2Z.id; [done|].
      rewrite N_NODE_CHILDREN_eq in Hlt. lia.
Qed.

Lemma wf_node_Clear : wf_node (T:=T) Node_Clear = true.
Proof.
  apply wf_node_unfold. split_and!; [apply length_replicate | done |].
  intros c child. by rewrite GetChild_Node_Clear.
Qed.

Lemma wf_node_set_child n c child :
  wf_node n = true → wf_node child = true → wf_node (set_child n c child) = true.
Proof.
  rewrite !(wf_node_unfold n), (wf_node_unfold (set_child n c child)).
  intros (Hlen & Hval & Hch) Hwf. simpl. split_and!.
  - by rewrite length_insert.
  - done.
  - intros c' child' Hc'%GetChild_lookup. simpl in Hc'.
    destruct (decide (slot c = slot c')) as [Heq|Hne].
    + rewrite Heq, list_lookup_insert_eq in Hc'; [naive_solver|].
      rewrite Hlen. apply slot_lt.
    + rewrite list_lookup_insert_ne in Hc' by done.
      apply (Hch c'). by apply GetChild_lookup.
Qed.

Lemma wf_node_store n v rk : wf_node n = true → wf_node (Insert_store n v rk).1 = true.
Proof.
  unfold Insert_store. destruct (occupied n) eqn:Hocc; [done|]. cbn [fst].
  rewrite !wf_node_unfold. intros (Hlen & _ & Hch). cbn [children value occupied].
  split_and!; [done | eauto |].
  intros c child Hc. apply (Hch c). exact Hc.
Qed.

(** ** Arguments and keys *)

Lemma strlen_bound buf (len : Z) :
  strlen buf = Some len → 0 <= len < Z.of_nat (length buf).
Proof.
  revert len. induction buf as [|c buf IH]; intros len; simpl; [done|].
  destruct (c =? 0); [intros [= <-]; lia|].
  destruct (strlen buf) as [m|]; simpl; [|done].
  intros [= <-]. specialize (IH m eq_refl). lia.
Qed.

Lemma to_int_small z : 0 <= z < 2147483648 → to_int z = z.
Proof. intros Hz. unfold to_int. rewrite Z.mod_small; lia. Qed.

Lemma key_of_CheckArgs key key_len k :
  key_of key key_len = Some k →
  ∃ len, _CheckArgs key key_len = Some len
         ∧ 0 <= len <= Z.of_nat (length (key_chars key))
         ∧ k = take (Z.to_nat len) (key_chars key).
Proof.
  unfold key_of, _CheckArgs, key_chars. destruct key as [buf|]; simpl.
  - destruct (key_len =? -1).
    + destruct (strlen buf) as [len|] eqn:Hlen; simpl; [|done].
      apply strlen_bound in Hlen.
      destruct (Z.ltb_spec len 2147483648); [|done]. intros [= <-].
      exists len. rewrite to_int_small by lia. split_and!; [done | lia | lia | done].
    + destruct (Z.leb_spec 0 key_len); simpl; [|done].
      destruct (Z.leb_spec key_len (Z.of_nat (length buf))); [|done].
      intros [= <-]. by exists key_len.
  - intros [= <-]. by exists 0.
Qed.

(** ** The walks, on the characters of the key *)

Lemma Search_visit_rule (found_node : option (Node T)) n :
  Search_visit found_node n = candidate_rule found_node n.
Proof.
  unfold Search_visit, candidate_rule.
  destruct (occupied n), found_node as [f|]; simpl; try done.
Qed.

Lemma take_key_step (key_len i : Z) c (key : list Z) :
  i < key_len →
  take (Z.to_nat (key_len - i)) (c :: key) = c :: take (Z.to_nat (key_len - (i + 1))) key.
Proof.
  intros Hlt. replace (Z.to_nat (key_len - i)) with (S (Z.to_nat (key_len - (i + 1)))) by lia.
  done.
Qed.

Lemma take_key_end (key_len : Z) (key : list Z) :
  take (Z.to_nat (key_len - key_len)) key = [].
Proof. by rewrite Z.sub_diag. Qed.

Lemma Search_walk_key key key_len i found_node n :
  i <= key_len → key_len - i <= Z.of_nat (length key) →
  Search_walk key key_len i found_node n
  = Some (fold_left candidate_rule (visited n (take (Z.to_nat (key_len - i)) key)) found_node).
Proof.
  revert i found_node n.
  induction key as [|c key IH]; intros i found_node n Hle Hlen; simpl in Hlen.
  - assert (i = key_len) as -> by lia. simpl.
    by rewrite Z.eqb_refl, Search_visit_rule, take_nil.
  - cbn [Search_walk]. destruct (Z.eqb_spec i key_len) as [->|Hne].
    + by rewrite take_key_end, Search_visit_rule.
    + rewrite take_key_step by lia. cbn [visited fold_left].
      rewrite Search_visit_rule.
      destruct (GetChild n c) as [child|]; [|done].
      apply IH; lia.
Qed.

Lemma Insert_alloc_key key key_len i n v rk :
  i <= key_len → key_len - i <= Z.of_nat (length key) →
  (∀ c, head key = Some c → GetChild n c = None) →
  Insert_alloc key key_len i n v rk
  = Some (insert_key n (take (Z.to_nat (key_len - i)) key) v rk).
Proof.
  revert i n.
  induction key as [|c key IH]; intros i n Hle Hlen Hnone; simpl in Hlen.
  - assert (i = key_len) as -> by lia. simpl. by rewrite Z.ltb_irrefl, take_nil.
  - cbn [Insert_alloc]. destruct (Z.ltb_spec i key_len) as [Hlt|Hge].
    + rewrite take_key_step by lia. cbn [insert_key].
      rewrite (Hnone c eq_refl). cbn [default].
      rewrite IH; [|lia|lia|intros; apply GetChild_Node_Clear]. simpl.
      by destruct (insert_key _ _ _ _).
    + assert (i = key_len) as -> by lia. by rewrite take_key_end.
Qed.

Lemma Insert_walk_key key key_len i n v rk :
  i <= key_len → key_len - i <= Z.of_nat (length key) →
  Insert_walk key key_len i n v rk
  = Some (insert_key n (take (Z.to_nat (key_len - i)) key) v rk).
Proof.
  revert i n.
  induction key as [|c key IH]; intros i n Hle Hlen; simpl in Hlen.
  - assert (i = key_len) as -> by lia. simpl. by rewrite Z.eqb_refl, take_nil.
  - cbn [Insert_walk]. destruct (Z.eqb_spec i key_len) as [->|Hne].
    + by rewrite take_key_end.
    + destruct (GetChild n c) as [child|] eqn:Hc.
      * rewrite take_key_step by lia. cbn [insert_key]. rewrite Hc. cbn [default].
        rewrite IH by lia. simpl. by destruct (insert_key _ _ _ _).
      * apply Insert_alloc_key; [done | simpl; lia |].
        by intros c' [= <-].
Qed.

(** [Search] and [Insert] on arguments that stand for a key. *)
Lemma Search_key t key key_len k :
  key_of key key_len = Some k →
  Search t key key_len
  = Some (found_value (fold_left candidate_rule (visited (m_root t) k) None)).
Proof.
  intros (len & Hargs & Hlen & ->)%key_of_CheckArgs.
  unfold Search. rewrite Hargs. simpl.
  rewrite Search_walk_key by lia. simpl. by rewrite Z.sub_0_r.
Qed.

Lemma Insert_key t key key_len k v rk :
  key_of key key_len = Some k →
  Insert t key v rk key_len
  = Some ((insert_key (m_root t) k v rk).2,
          {| m_root := (insert_key (m_root t) k v rk).1;
             m_value_list := if (insert_key (m_root t) k v rk).2
                             then enqueue (m_value_list t) v else m_value_list t |}).
Proof.
  intros (len & Hargs & Hlen & ->)%key_of_CheckArgs.
  unfold Insert. rewrite Hargs. simpl.
  rewrite Insert_walk_key by lia. simpl. rewrite Z.sub_0_r.
  by destruct (insert_key _ _ _ _).
Qed.

(** ** The invariant of the class *)

Lemma node_values_unfold n :
  node_values n
  = (if occupied n then option_list (value n) else [])
    ++ concat (map child_values (children n)).
Proof. by destruct n. Qed.

Lemma node_values_Clear : node_values (T:=T) Node_Clear = [].
Proof.
  rewrite node_values_unfold. simpl.
  induction N_NODE_CHILDREN as [|m IH]; [done|]. by simpl.
Qed.

Lemma node_values_store n v rk :
  node_values (Insert_store n v rk).1
  ≡ₚ (if (Insert_store n v rk).2 then [v] else []) ++ node_values n.
Proof.
  unfold Insert_store. destruct (occupied n) eqn:Hocc; [done|]. cbn [fst snd].
  rewrite !node_values_unfold, Hocc. by cbn [occupied value children option_list].
Qed.

Lemma node_values_set_child n c child :
  length (children n) = N_NODE_CHILDREN →
  node_values (set_child n c child) ++ child_values (children n !!! slot c)
  ≡ₚ node_values n ++ node_values child.
Proof.
  intros Hlen.
  assert (slot c < length (children n))%nat as Hlt by (rewrite Hlen; apply slot_lt).
  destruct (lookup_lt_is_Some_2 _ _ Hlt) as [old Hold].
  rewrite (list_lookup_total_correct _ _ _ Hold).
  rewrite (node_values_unfold n), (node_values_unfold (set_child n c child)).
  cbn [set_child occupied value children].
  rewrite insert_take_drop by done.
  pose proof (take_drop_middle _ _ _ Hold) as Hsplit.
  set (l1 := take (slot c) (children n)) in *.
  set (l2 := drop (S (slot c)) (children n)) in *.
  rewrite <- Hsplit.
  rewrite !map_app, !concat_app. cbn [map concat child_values].
  rewrite <- !app_assoc. do 2 apply Permutation_app_head.
  rewrite (Permutation_app_comm (node_values child)).
  rewrite (Permutation_app_comm _ (child_values old)).
  by rewrite <- app_assoc.
Qed.

Lemma GetChild_lookup_total n c :
  length (children n) = N_NODE_CHILDREN → children n !!! slot c = GetChild n c.
Proof.
  intros Hlen. unfold GetChild.
  assert (slot c < length (children n))%nat as Hlt by (rewrite Hlen; apply slot_lt).
  destruct (lookup_lt_is_Some_2 _ _ Hlt) as [old Hold].
  by rewrite (list_lookup_total_correct _ _ _ Hold), Hold.
Qed.

Lemma insert_inv_store n v rk : wf_node n = true → insert_inv n (Insert_store n v rk) v.
Proof. intros Hwf. split; [by apply wf_node_store | apply node_values_store]. Qed.

Lemma insert_inv_set_child n c (old : option (Node T)) child ok v :
  wf_node n = true →
  GetChild n c = old →
  insert_inv (default Node_Clear old) (child, ok) v →
  insert_inv n (set_child n c child, ok) v.
Proof.
  intros Hwf Hold [Hwf' Hperm]. cbn [fst snd] in *.
  split; [by apply wf_node_set_child|].
  pose proof Hwf as (Hlen & _ & _)%wf_node_unfold.
  pose proof (node_values_set_child n c child Hlen) as Hset.
  rewrite GetChild_lookup_total, Hold in Hset by done.
  rewrite Hperm in Hset. destruct old as [next|]; cbn [default child_values] in Hset.
  - apply (Permutation_app_inv_r (node_values next)). cbn [fst snd].
    rewrite Hset, app_assoc. apply Permutation_app_tail, Permutation_app_comm.
  - rewrite node_values_Clear, !app_nil_r in Hset. rewrite Hset.
    apply Permutation_app_comm.
Qed.

Lemma Insert_alloc_inv key key_len i n v rk r :
  wf_node n = true →
  (∀ c, head key = Some c → GetChild n c = None) →
  Insert_alloc key key_len i n v rk = Some r → insert_inv n r v.
Proof.
  revert i n r.
  induction key as [|c key IH]; intros i n r Hwf Hnone; cbn [Insert_alloc];
    destruct (i <? key_len); try done; try (intros [= <-]; by apply insert_inv_store).
  destruct (Insert_alloc key key_len (i + 1) Node_Clear v rk) as [[child ok]|] eqn:Hrec;
    simpl; [|done].
  intros [= <-]. apply (insert_inv_set_child _ _ None); [done | by apply Hnone |].
  apply (IH _ _ _ wf_node_Clear) in Hrec; [done|].
  intros; apply GetChild_Node_Clear.
Qed.

Lemma Insert_walk_inv key key_len i n v rk r :
  wf_node n = true →
  Insert_walk key key_len i n v rk = Some r → insert_inv n r v.
Proof.
  revert i n r.
  induction key as [|c key IH]; intros i n r Hwf; cbn [Insert_walk];
    destruct (i =? key_len); try done; try (intros [= <-]; by apply insert_inv_store).
  destruct (GetChild n c) as [next|] eqn:Hc.
  - destruct (Insert_walk key key_len (i + 1) next v rk) as [[next' ok]|] eqn:Hrec;
      simpl; [|done].
    intros [= <-]. apply (insert_inv_set_child _ _ (Some next)); [done | done |].
    apply IH in Hrec; [done|].
    apply wf_node_unfold in Hwf as (_ & _ & Hch). by apply (Hch c).
  - apply Insert_alloc_inv; [done|]. by intros c' [= <-].
Qed.

(** [Clear_drain] is the loop over [pop]. *)
Lemma Clear_drain_pop (q : Queue T) :
  Clear_drain q
  = match pop q with
    | (Some iter, q') => ((Clear_drain q').1, iter :: (Clear_drain q').2)
    | (None, q') => (q', [])
    end.
Proof. destruct q as [|iter q']; simpl; [done|]. by destruct (Clear_drain q'). Qed.

Lemma Clear_drain_all (q : Queue T) : Clear_drain q = ([], q).
Proof. induction q as [|e q IH]; simpl; [done|]. by rewrite IH. Qed.

Lemma Clear_new t :
  Clear t = {| cleared_trie := Trie_new; deleted := m_value_list t; freed := _Clear (m_root t) |}.
Proof. unfold Clear. by rewrite Clear_drain_all. Qed.

Lemma trie_inv_new : trie_inv (T:=T) Trie_new.
Proof.
  unfold trie_inv, Trie_new; cbn [m_root m_value_list].
  split; [apply wf_node_Clear | by rewrite node_values_Clear].
Qed.

Lemma trie_inv_Insert t key v rk key_len ok t' :
  trie_inv t → Insert t key v rk key_len = Some (ok, t') → trie_inv t'.
Proof.
  intros [Hwf Hperm]. unfold Insert.
  destruct (_CheckArgs key key_len) as [len|]; simpl; [|done].
  destruct (Insert_walk _ _ _ _ _ _) as [[root ok']|] eqn:Hwalk; simpl; [|done].
  intros [= -> <-]. apply Insert_walk_inv in Hwalk as [Hwf' Hperm']; [|done].
  cbn [fst snd] in *. split; [done|]. cbn [m_root m_value_list].
  rewrite Hperm'. destruct ok; cbn [app]; [|done].
  unfold enqueue. rewrite <- Hperm. symmetry. apply Permutation_cons_append.
Qed.

Lemma reachable_inv t : reachable t → trie_inv t.
Proof.
  induction 1 as [|t key v rk key_len ok t' _ IH Hins|t _ IH].
  - apply trie_inv_new.
  - by eapply trie_inv_Insert.
  - rewrite Clear_new. apply trie_inv_new.
Qed.

(** ** Search: the candidate rule *)

(** C1.  For arguments that stand for a key, [Search] returns the value of
    the candidate that the rule of the specification leaves after the nodes
    on the path of the key, taken from the root on: the first occupied node
    becomes the candidate, a later occupied node replaces it exactly when its
    rank is less than or equal to the candidate's.  With "a" and "ab" stored
    at rank 5 each, [Search("ab")] returns the value of "ab"; with "a" at
    rank 1 and "ab" at rank 5 it returns the value of "a"; in either order of
    insertion. *)
Theorem Search_candidate_rule :
  (∀ t key key_len k,
     key_of key key_len = Some k →
     Search t key key_len
     = Some (found_value (fold_left candidate_rule (visited (m_root t) k) None)))
  ∧ (∀ v_a v_ab : T,
       (t ← Insert_all Trie_new [(c_str "a", v_a, 5); (c_str "ab", v_ab, 5)];
        Search t (c_str "ab") (-1)) = Some (Some v_ab)
       ∧ (t ← Insert_all Trie_new [(c_str "ab", v_ab, 5); (c_str "a", v_a, 5)];
          Search t (c_str "ab") (-1)) = Some (Some v_ab))
  ∧ (∀ v_a v_ab : T,
       (t ← Insert_all Trie_new [(c_str "a", v_a, 1); (c_str "ab", v_ab, 5)];
        Search t (c_str "ab") (-1)) = Some (Some v_a)
       ∧ (t ← Insert_all Trie_new [(c_str "ab", v_ab, 5); (c_str "a", v_a, 1)];
          Search t (c_str "ab") (-1)) = Some (Some v_a)).
Proof.
  split_and!.
  - intros t key key_len k Hk. by apply Search_key.
  - intros v_a v_ab. split; vm_compute; reflexivity.
  - intros v_a v_ab. split; vm_compute; reflexivity.
Qed.

(** ** Insert, then Search *)

(** [prefix_ranks_ge] in terms of the stored keys. *)
Lemma prefix_ranks_ge_spec n k rk :
  prefix_ranks_ge n k rk = true ↔
  ∀ p s m, k = p ++ s → s ≠ [] → find_node n p = Some m → occupied m = true → rk <= rank m.
Proof.
  revert n. induction k as [|c k IH]; intros n; cbn [prefix_ranks_ge].
  - split; [|done]. intros _ p s m Hk Hs. by destruct p, s.
  - rewrite andb_true_iff. split.
    + intros [Hn Hrest] p s m Hk Hs Hfind Hocc. destruct p as [|c' p].
      * injection Hfind as <-. rewrite Hocc in Hn. simpl in Hn. lia.
      * injection Hk as <- ->. cbn [find_node] in Hfind.
        destruct (GetChild n c) as [child|]; [|done]. simpl in Hfind.
        by eapply (proj1 (IH child)).
    + intros Hall. split.
      * destruct (occupied n) eqn:Hocc; [|done]. simpl.
        apply Z.leb_le, (Hall [] (c :: k) n); done.
      * destruct (GetChild n c) as [child|] eqn:Hc; [|done].
        apply IH. intros p s m -> Hs Hfind Hocc.
        apply (Hall (c :: p) s m); [done | done | | done].
        cbn [find_node]. by rewrite Hc.
Qed.

Lemma candidate_rule_bound (found_node : option (Node T)) n rk :
  (∀ f, found_node = Some f → rk <= rank f) →
  implb (occupied n) (rk <=? rank n) = true →
  ∀ f, candidate_rule found_node n = Some f → rk <= rank f.
Proof.
  intros Hfound Hn f. unfold candidate_rule.
  destruct found_node as [c|], (occupied n); simpl in *.
  - destruct (rank n <=? rank c); intros [= <-]; [lia | by apply Hfound].
  - intros [= <-]. by apply Hfound.
  - intros [= <-]. lia.
  - done.
Qed.

Lemma wf_node_child n c :
  wf_node n = true → wf_node (default Node_Clear (GetChild n c)) = true.
Proof.
  intros (_ & _ & Hch)%wf_node_unfold.
  destruct (GetChild n c) as [child|] eqn:Hc; [by apply (Hch c) | apply wf_node_Clear].
Qed.

Lemma insert_key_search k : ∀ n n' v rk (found_node : option (Node T)),
  wf_node n = true →
  insert_key n k v rk = (n', true) →
  prefix_ranks_ge n k rk = true →
  (∀ f, found_node = Some f → rk <= rank f) →
  found_value (fold_left candidate_rule (visited n' k) found_node) = Some v.
Proof.
  induction k as [|c k IH]; intros n n' v rk found_node Hwf Hins Hranks Hfound.
  - cbn [insert_key] in Hins. unfold Insert_store in Hins.
    destruct (occupied n); [done|]. injection Hins as <-.
    cbn [visited fold_left]. unfold candidate_rule.
    destruct found_node as [f|]; cbn [occupied rank andb]; [|done].
    specialize (Hfound f eq_refl). destruct (Z.leb_spec rk (rank f)); [done | lia].
  - cbn [insert_key] in Hins.
    destruct (insert_key (default Node_Clear (GetChild n c)) k v rk) as [child ok] eqn:Hrec.
    injection Hins as <- ->.
    pose proof Hwf as (Hlen & _ & _)%wf_node_unfold.
    cbn [prefix_ranks_ge] in Hranks. apply andb_true_iff in Hranks as [Hn Hrest].
    cbn [visited fold_left]. rewrite GetChild_set_child by done.
    apply (IH _ _ _ _ _ (wf_node_child n c Hwf) Hrec).
    + destruct (GetChild n c) as [next|]; [done|]. cbn [default from_option id].
      destruct k; cbn [prefix_ranks_ge]; [done|]. by rewrite GetChild_Node_Clear.
    + by apply candidate_rule_bound.
Qed.

Lemma insert_key_stored k : ∀ n v rk,
  wf_node n = true →
  ∃ m, find_node (insert_key n k v rk).1 k = Some m ∧ occupied m = true.
Proof.
  induction k as [|c k IH]; intros n v rk Hwf.
  - cbn [insert_key find_node]. unfold Insert_store.
    destruct (occupied n) eqn:Hocc; eauto.
  - cbn [insert_key].
    destruct (IH _ v rk (wf_node_child n c Hwf)) as (m & Hfind & Hocc).
    destruct (insert_key (default Node_Clear (GetChild n c)) k v rk) as [child ok].
    pose proof Hwf as (Hlen & _ & _)%wf_node_unfold.
    cbn [fst find_node] in *. rewrite GetChild_set_child by done. eauto.
Qed.

Lemma insert_key_duplicate k : ∀ n m v rk,
  find_node n k = Some m → occupied m = true → insert_key n k v rk = (n, false).
Proof.
  induction k as [|c k IH]; intros n m v rk Hfind Hocc; cbn [find_node insert_key] in *.
  - injection Hfind as <-. unfold Insert_store. by rewrite Hocc.
  - destruct (GetChild n c) as [child|] eqn:Hc; [|done]. simpl in Hfind.
    cbn [default from_option id]. rewrite (IH _ _ v rk Hfind Hocc). by rewrite set_child_same.
Qed.

(** A successful or refused [Insert] leaves the key stored. *)
Lemma Insert_stored t key key_len k v rk ok t' :
  wf_node (m_root t) = true →
  key_of key key_len = Some k →
  Insert t key v rk key_len = Some (ok, t') → stored t' k = true.
Proof.
  intros Hwf Hk. rewrite (Insert_key _ _ _ _ _ _ Hk). intros [= _ <-].
  unfold stored. cbn [m_root].
  by destruct (insert_key_stored k (m_root t) v rk Hwf) as (m & -> & ->).
Qed.

(** C6, as the code has it.  If [Insert] of the key K with value V and rank R
    succeeds on a well-shaped trie, and no key stored before that is a proper
    prefix of K has a rank less than R, then [Search] with arguments that
    stand for K returns V. *)
Theorem Insert_then_Search t key key_len k v rk t' key' key_len' :
  wf_node (m_root t) = true →
  key_of key key_len = Some k →
  Insert t key v rk key_len = Some (true, t') →
  prefix_ranks_ge (m_root t) k rk = true →
  key_of key' key_len' = Some k →
  Search t' key' key_len' = Some (Some v).
Proof.
  intros Hwf Hk Hins Hranks Hk'.
  rewrite (Insert_key _ _ _ _ _ _ Hk) in Hins. injection Hins as Hok <-.
  rewrite (Search_key _ _ _ _ Hk'). cbn [m_root]. f_equal.
  apply (insert_key_search k (m_root t) _ v rk None Hwf); [|done|done].
  destruct (insert_key (m_root t) k v rk) as [root ok]. simpl in Hok. by subst.
Qed.

(** ** Insert of a stored key *)

(** [Search] for a stored key that no stored proper prefix outranks finds the
    node of the key. *)
Lemma stored_key_search k : ∀ n m (found_node : option (Node T)),
  find_node n k = Some m → occupied m = true →
  prefix_ranks_ge n k (rank m) = true →
  (∀ f, found_node = Some f → rank m <= rank f) →
  fold_left candidate_rule (visited n k) found_node = Some m.
Proof.
  induction k as [|c k IH]; intros n m found_node Hfind Hocc Hranks Hfound;
    cbn [find_node visited fold_left] in *.
  - injection Hfind as <-. unfold candidate_rule. rewrite Hocc.
    destruct found_node as [f|]; cbn [andb]; [|done].
    specialize (Hfound f eq_refl). by destruct (Z.leb_spec (rank n) (rank f)); [|lia].
  - destruct (GetChild n c) as [child|] eqn:Hc; [|done]. simpl in Hfind.
    cbn [prefix_ranks_ge] in Hranks. rewrite Hc in Hranks.
    apply andb_true_iff in Hranks as [Hn Hrest].
    apply IH; [done | done | done |]. by apply candidate_rule_bound.
Qed.

(** C7, as the code has it.  [Insert] with arguments that stand for a key
    already stored returns [false] and leaves the trie as it was: the root
    with all its nodes, so the value and the rank under the key and every
    occupancy, and the value list, to which the rejected value is not added;
    every [Search] answers as before the call.  [Search] for the key itself
    returns the stored value when no stored proper prefix of the key has a
    rank less than the rank of the key. *)
Theorem Insert_duplicate t key key_len k (old : option T) (rk_old : Z) v rk :
  key_of key key_len = Some k →
  TrieEntries.entry t k = Some (old, rk_old) →
  ∃ t',
    Insert t key v rk key_len = Some (false, t')
    ∧ t' = t
    ∧ TrieEntries.entry t' k = Some (old, rk_old)
    ∧ m_value_list t' = m_value_list t
    ∧ (∀ key2 key_len2, Search t' key2 key_len2 = Search t key2 key_len2)
    ∧ (prefix_ranks_ge (m_root t) k rk_old = true → Search t' key key_len = Some old).
Proof.
  intros Hk Hentry. exists t.
  pose proof Hentry as Hnode.
  unfold TrieEntries.entry, TrieEntries.entry_at in Hnode.
  destruct (find_node (m_root t) k) as [m|] eqn:Hfind; simpl in Hnode; [|done].
  destruct (occupied m) eqn:Hocc; [|done]. injection Hnode as <- <-.
  split_and!; [| reflexivity | exact Hentry | reflexivity | reflexivity |].
  - rewrite (Insert_key _ _ _ _ _ _ Hk).
    rewrite (insert_key_duplicate k _ m v rk Hfind Hocc). by destruct t.
  - intros Hranks. rewrite (Search_key _ _ _ _ Hk).
    by rewrite (stored_key_search k _ m None Hfind Hocc Hranks).
Qed.

(** ** Clear *)

Lemma _Clear_Node_Clear : _Clear (T:=T) Node_Clear = O.
Proof.
  unfold Node_Clear. cbn [_Clear children].
  induction N_NODE_CHILDREN as [|m IH]; [done|]. by simpl.
Qed.

Lemma Search_walk_Node_Clear key key_len i (r : option (Node T)) :
  Search_walk key key_len i None Node_Clear = Some r → r = None.
Proof.
  destruct key as [|c key]; cbn [Search_walk]; unfold Search_visit; cbn [occupied Node_Clear];
    destruct (i =? key_len); try congruence.
  rewrite GetChild_Node_Clear. congruence.
Qed.

(** C8.  [Clear] on a trie built by the interface leaves the trie of the
    constructor: [Empty] holds and every [Search] returns [nullptr], for all
    arguments that stand for a key, and whenever it returns.  The pointers it
    deleted are the entries of the value list, each once and in order, and
    these are the values of the occupied nodes, each as often as it was
    stored: no pointer is deleted twice when the stored pointers differ from
    each other.  A second [Clear] deletes nothing, frees nothing and leaves
    the same trie. *)
Theorem Clear_teardown t :
  reachable t →
  cleared_trie (Clear t) = Trie_new
  ∧ Empty (cleared_trie (Clear t)) = true
  ∧ (∀ key key_len r, Search (cleared_trie (Clear t)) key key_len = Some r → r = None)
  ∧ (∀ key key_len k,
       key_of key key_len = Some k → Search (cleared_trie (Clear t)) key key_len = Some None)
  ∧ deleted (Clear t) = m_value_list t
  ∧ deleted (Clear t) ≡ₚ node_values (m_root t)
  ∧ (NoDup (node_values (m_root t)) → NoDup (deleted (Clear t)))
  ∧ Clear (cleared_trie (Clear t))
    = {| cleared_trie := cleared_trie (Clear t); deleted := []; freed := O |}.
Proof.
  intros [_ Hperm]%reachable_inv. rewrite Clear_new. cbn [cleared_trie deleted].
  assert (∀ key key_len r, Search (T:=T) Trie_new key key_len = Some r → r = None) as Hnone.
  { intros key key_len r. unfold Search.
    destruct (_CheckArgs key key_len) as [len|]; simpl; [|done].
    destruct (Search_walk _ _ _ _ _) as [found_node|] eqn:Hwalk; simpl; [|done].
    apply Search_walk_Node_Clear in Hwalk as ->. congruence. }
  split_and!.
  - reflexivity.
  - reflexivity.
  - exact Hnone.
  - intros key key_len k Hk.
    destruct (Search Trie_new key key_len) as [r|] eqn:Hs.
    + by rewrite (Hnone _ _ _ Hs).
    + by rewrite (Search_key _ _ _ _ Hk) in Hs.
  - reflexivity.
  - exact Hperm.
  - by rewrite Hperm.
  - rewrite Clear_new. cbn [Trie_new m_root m_value_list]. by rewrite _Clear_Node_Clear.
Qed.

(** ** A null key *)

(** C9.  With a null key pointer, whatever [key_len] is passed, [_CheckArgs]
    sets the length to 0, and [Insert] and [Search] do what they do for a key
    of length 0 in any array: no character is read, [Insert] stores at the
    root or refuses there, [Search] looks at the root alone. *)
Theorem null_key_is_empty_key t v rk (key_len : Z) (buf : list Z) :
  _CheckArgs None key_len = Some 0
  ∧ Insert t None v rk key_len = Insert t (Some buf) v rk 0
  ∧ Insert t None v rk key_len
    = Some ((Insert_store (m_root t) v rk).2,
            {| m_root := (Insert_store (m_root t) v rk).1;
               m_value_list := if (Insert_store (m_root t) v rk).2
                               then enqueue (m_value_list t) v else m_value_list t |})
  ∧ Search t None key_len = Search t (Some buf) 0
  ∧ Search t None key_len = Some (found_value (Search_visit None (m_root t))).
Proof.
  split_and!.
  - reflexivity.
  - unfold Insert; simpl. by destruct buf.
  - unfold Insert; simpl. by destruct (Insert_store _ _ _).
  - unfold Search; simpl. by destruct buf.
  - reflexivity.
Qed.

(** ** An occupied root *)

Lemma Search_visit_occupied (found_node : option (Node T)) n :
  wf_node n = true →
  (∀ f, found_node = Some f → is_Some (value f)) →
  is_Some found_node ∨ occupied n = true →
  ∃ f, Search_visit found_node n = Some f ∧ is_Some (value f).
Proof.
  intros (_ & Hval & _)%wf_node_unfold Hgood Hsome. unfold Search_visit.
  destruct (occupied n) eqn:Hocc.
  - destruct found_node as [f|]; [|eauto].
    destruct (rank n <=? rank f); eauto.
  - destruct Hsome as [[f ->]|]; [eauto | done].
Qed.

Lemma Search_walk_occupied key key_len : ∀ i (found_node r : option (Node T)) n,
  wf_node n = true →
  (∀ f, found_node = Some f → is_Some (value f)) →
  is_Some found_node ∨ occupied n = true →
  Search_walk key key_len i found_node n = Some r →
  ∃ f, r = Some f ∧ is_Some (value f).
Proof.
  induction key as [|c key IH]; intros i found_node r n Hwf Hgood Hsome; cbn [Search_walk];
    destruct (Search_visit_occupied found_node n Hwf Hgood Hsome) as (f & -> & Hfv);
    destruct (i =? key_len); try done; try (intros [= <-]; by exists f).
  destruct (GetChild n c) as [next|] eqn:Hc; [|intros [= <-]; by exists f].
  apply wf_node_unfold in Hwf as (_ & _ & Hch).
  apply IH; [by apply (Hch c) | by intros ? [= <-] | by left].
Qed.

(** C10.  On a well-shaped trie whose root is occupied, [Search] returns a
    non-null pointer: whenever it returns, and it does return for all
    arguments that stand for a key. *)
Theorem Search_root_occupied t :
  wf_node (m_root t) = true →
  occupied (m_root t) = true →
  (∀ key key_len r, Search t key key_len = Some r → is_Some r)
  ∧ (∀ key key_len k, key_of key key_len = Some k → ∃ v, Search t key key_len = Some (Some v)).
Proof.
  intros Hwf Hocc.
  assert (∀ key key_len r, Search t key key_len = Some r → is_Some r) as Hsome.
  { intros key key_len r. unfold Search.
    destruct (_CheckArgs key key_len) as [len|]; simpl; [|done].
    destruct (Search_walk _ _ _ _ _) as [found_node|] eqn:Hwalk; simpl; [|done].
    apply Search_walk_occupied in Hwalk as (f & -> & Hv); [|done|done|by right].
    by intros [= <-]. }
  split; [done|]. intros key key_len k Hk.
  destruct (Search t key key_len) as [r|] eqn:Hs.
  - destruct (Hsome _ _ _ Hs) as [v ->]. by exists v.
  - by rewrite (Search_key _ _ _ _ Hk) in Hs.
Qed.

End TrieFacts.

(** ** The trie theorems on the example tries *)

Section TrieExamples.

Import Trie Examples.

Lemma reachable_one_key rk_a : reachable (one_key rk_a).
Proof.
  apply (reachable_Insert Trie_new (c_str "a") 1%nat rk_a (-1) true); [apply reachable_new|].
  vm_compute. reflexivity.
Qed.

Lemma reachable_two_keys rk_a rk_ab : reachable (two_keys rk_a rk_ab).
Proof.
  apply (reachable_Insert (one_key rk_a) (c_str "ab") 2%nat rk_ab (-1) true);
    [apply reachable_one_key|].
  vm_compute. reflexivity.
Qed.

Lemma Search_candidate_rule_witness :
  key_of (c_str "abc") (-1) = Some [97; 98; 99]
  ∧ Search (two_keys 5 5) (c_str "abc") (-1)
    = Some (found_value
              (fold_left candidate_rule (visited (m_root (two_keys 5 5)) [97; 98; 99]) None)).
Proof.
  split; [reflexivity|].
  apply (proj1 Search_candidate_rule (two_keys 5 5) (c_str "abc") (-1) [97; 98; 99]).
  reflexivity.
Defined.

(** C6 as stated fails: with "a" stored at rank 1, the insertion of the new
    key "ab" at rank 5 succeeds, and [Search("ab")] returns the value of
    "a". *)
Lemma Insert_then_Search_outranked :
  ¬ ∀ (t t' : Trie nat) (key : option (list Z)) (key_len : Z) (k : list Z) (v : nat) (rk : Z),
      reachable t →
      key_of key key_len = Some k →
      stored t k = false →
      Insert t key v rk key_len = Some (true, t') →
      Search t' key key_len = Some (Some v).
Proof.
  intros Hclaim.
  specialize (Hclaim (one_key 1) (two_keys 1 5) (c_str "ab") (-1) [97; 98] 2%nat 5).
  assert (Search (two_keys 1 5) (c_str "ab") (-1) = Some (Some 1%nat)) as Hfound
    by (vm_compute; reflexivity).
  rewrite Hfound in Hclaim.
  assert (Some (Some 1%nat) = Some (Some 2%nat)) as [=].
  apply Hclaim; [apply reachable_one_key | reflexivity | vm_compute; reflexivity |].
  vm_compute. reflexivity.
Qed.

Lemma Insert_then_Search_witness :
  wf_node (m_root (one_key 5)) = true
  ∧ key_of (c_str "ab") (-1) = Some [97; 98]
  ∧ Insert (one_key 5) (c_str "ab") 2%nat 5 (-1) = Some (true, two_keys 5 5)
  ∧ prefix_ranks_ge (m_root (one_key 5)) [97; 98] 5 = true
  ∧ key_of (Some [97; 98; 99]) 2 = Some [97; 98]
  ∧ Search (two_keys 5 5) (Some [97; 98; 99]) 2 = Some (Some 2%nat).
Proof.
  assert (wf_node (m_root (one_key 5)) = true) as Hwf by (vm_compute; reflexivity).
  assert (Insert (one_key 5) (c_str "ab") 2%nat 5 (-1) = Some (true, two_keys 5 5)) as Hins
    by (vm_compute; reflexivity).
  assert (prefix_ranks_ge (m_root (one_key 5)) [97; 98] 5 = true) as Hranks
    by (vm_compute; reflexivity).
  split_and!; [exact Hwf | reflexivity | exact Hins | exact Hranks | reflexivity |].
  apply (Insert_then_Search (one_key 5) (c_str "ab") (-1) [97; 98] 2%nat 5 (two_keys 5 5)
           (Some [97; 98; 99]) 2 Hwf eq_refl Hins Hranks eq_refl).
Defined.

(** C7 as stated fails: in the trie with "a" at rank 1 and "ab" at rank 5,
    the key "ab" is stored with the value 2, a second [Insert] of "ab" is
    refused, and [Search("ab")] returns the value 1 of "a", after the call
    as before it. *)
Lemma Insert_duplicate_outranked :
  ¬ ∀ (t : Trie nat) (key : option (list Z)) (key_len : Z) (k : list Z)
      (v_old : nat) (rk_old : Z) (v : nat) (rk : Z),
      reachable t →
      key_of key key_len = Some k →
      TrieEntries.entry t k = Some (Some v_old, rk_old) →
      ∃ t', Insert t key v rk key_len = Some (false, t')
            ∧ t' = t
            ∧ Search t' key key_len = Some (Some v_old).
Proof.
  intros Hclaim.
  assert (TrieEntries.entry (two_keys 1 5) [97; 98] = Some (Some 2%nat, 5)) as Hentry
    by (vm_compute; reflexivity).
  destruct (Hclaim (two_keys 1 5) (c_str "ab") (-1) [97; 98] 2%nat 5 3%nat 7
              (reachable_two_keys 1 5) eq_refl Hentry) as (t' & _ & -> & Hsearch).
  clear Hclaim Hentry. vm_compute in Hsearch. discriminate Hsearch.
Qed.

Lemma Insert_duplicate_witness :
  key_of (c_str "ab") (-1) = Some [97; 98]
  ∧ TrieEntries.entry (two_keys 5 3) [97; 98] = Some (Some 2%nat, 3)
  ∧ prefix_ranks_ge (m_root (two_keys 5 3)) [97; 98] 3 = true
  ∧ ∃ t',
      Insert (two_keys 5 3) (c_str "ab") 3%nat 1 (-1) = Some (false, t')
      ∧ t' = two_keys 5 3
      ∧ TrieEntries.entry t' [97; 98] = Some (Some 2%nat, 3)
      ∧ m_value_list t' = m_value_list (two_keys 5 3)
      ∧ (∀ key2 key_len2, Search t' key2 key_len2 = Search (two_keys 5 3) key2 key_len2)
      ∧ (prefix_ranks_ge (m_root (two_keys 5 3)) [97; 98] 3 = true →
         Search t' (c_str "ab") (-1) = Some (Some 2%nat)).
Proof.
  assert (TrieEntries.entry (two_keys 5 3) [97; 98] = Some (Some 2%nat, 3)) as Hentry
    by (vm_compute; reflexivity).
  assert (prefix_ranks_ge (m_root (two_keys 5 3)) [97; 98] 3 = true) as Hranks
    by (vm_compute; reflexivity).
  split; [reflexivity|]. split; [exact Hentry|]. split; [exact Hranks|].
  exact (Insert_duplicate (two_keys 5 3) (c_str "ab") (-1) [97; 98] (Some 2%nat) 3 3%nat 1
           eq_refl Hentry).
Defined.

Lemma Clear_teardown_witness :
  reachable (two_keys 5 5)
  ∧ cleared_trie (Clear (two_keys 5 5)) = Trie_new
  ∧ Empty (cleared_trie (Clear (two_keys 5 5))) = true
  ∧ (∀ key key_len r,
       Search (cleared_trie (Clear (two_keys 5 5))) key key_len = Some r → r = None)
  ∧ (∀ key key_len k,
       key_of key key_len = Some k →
       Search (cleared_trie (Clear (two_keys 5 5))) key key_len = Some None)
  ∧ deleted (Clear (two_keys 5 5)) = m_value_list (two_keys 5 5)
  ∧ deleted (Clear (two_keys 5 5)) ≡ₚ node_values (m_root (two_keys 5 5))
  ∧ (NoDup (node_values (m_root (two_keys 5 5))) → NoDup (deleted (Clear (two_keys 5 5))))
  ∧ Clear (cleared_trie (Clear (two_keys 5 5)))
    = {| cleared_trie := cleared_trie (Clear (two_keys 5 5)); deleted := []; freed := O |}.
Proof.
  split; [apply reachable_two_keys|].
  apply (Clear_teardown (two_keys 5 5)), reachable_two_keys.
Defined.

Lemma Search_root_occupied_witness :
  wf_node (m_root root_key) = true
  ∧ occupied (m_root root_key) = true
  ∧ (∀ key key_len r, Search root_key key key_len = Some r → is_Some r)
  ∧ (∀ key key_len k,
       key_of key key_len = Some k → ∃ v, Search root_key key key_len = Some (Some v)).
Proof.
  assert (wf_node (m_root root_key) = true) as Hwf by (vm_compute; reflexivity).
  assert (occupied (m_root root_key) = true) as Hocc by (vm_compute; reflexivity).
  split_and!; [exact Hwf | exact Hocc | |]; apply (Search_root_occupied root_key Hwf Hocc).
Defined.

End TrieExamples.

(** * Facts about the chain of remap plugins *)

Section RemapFacts.

Import RemapPlugins.
Context `{TSRemapStatus} {URL : Type} `{!URLString URL}.
Implicit Types (rp : RemapPlugins URL) (p : RemapPluginInst URL) (map : url_mapping URL).

(** ** The status codes *)

Lemma codes_ok_distinct :
  codes_ok →
  TSREMAP_NO_REMAP ≠ TSREMAP_DID_REMAP
  ∧ TSREMAP_NO_REMAP ≠ TSREMAP_NO_REMAP_STOP
  ∧ TSREMAP_NO_REMAP ≠ TSREMAP_DID_REMAP_STOP
  ∧ TSREMAP_DID_REMAP ≠ TSREMAP_NO_REMAP_STOP
  ∧ TSREMAP_DID_REMAP ≠ TSREMAP_DID_REMAP_STOP
  ∧ TSREMAP_NO_REMAP_STOP ≠ TSREMAP_DID_REMAP_STOP.
Proof.
  intros [Hnd _].
  repeat (apply NoDup_cons in Hnd as [? Hnd]).
  repeat match goal with
         | Hin : _ ∉ _ :: _ |- _ => apply not_elem_of_cons in Hin as [? ?]
         end.
  done.
Qed.

Lemma normalized_nonneg (raw : Z) : 0 <= raw → normalized raw = raw.
Proof. intros Hraw. unfold normalized. by destruct (Z.ltb_spec raw 0); [lia|]. Qed.

Lemma normalized_neg (raw : Z) : raw < 0 → normalized raw = TSREMAP_NO_REMAP.
Proof. intros Hraw. unfold normalized. by destruct (Z.ltb_spec raw 0); [|lia]. Qed.

(** ** One call of a plugin *)

(** [run_plugin], field by field, from what [doRemap] answers. *)
Lemma run_plugin_effect rp p raw rri :
  p {| requestUrl := _request_url rp; redirect := 0 |} = (raw, rri) →
  let captured :=
    ((TSREMAP_DID_REMAP =? normalized raw) || (TSREMAP_DID_REMAP_STOP =? normalized raw))
    && negb (redirect rri =? 0) in
  (run_plugin rp p).1 = normalized raw
  ∧ _cur (run_plugin rp p).2 = _cur rp
  ∧ _rewritten (run_plugin rp p).2 = _rewritten rp
  ∧ url_map (run_plugin rp p).2 = url_map rp
  ∧ _request_url (run_plugin rp p).2 = requestUrl rri
  ∧ history (run_plugin rp p).2
    = history rp ++ [{| inv_retcode := raw; inv_redirect := redirect rri |}]
  ∧ remap_redirect (run_plugin rp p).2
    = if captured then Some (string_get (requestUrl rri)) else remap_redirect rp.
Proof.
  intros Hp. unfold run_plugin. rewrite Hp. fold (normalized raw).
  destruct (_ && _), (Nat.eqb (_cur rp) 0); simpl; done.
Qed.

(** The state in which [run_single_remap] calls the plugin. *)
Lemma plugin_input_url rp :
  requestUrl (plugin_input rp)
  = _request_url (if Nat.eqb 0 (_cur rp)
                  then set_request_url rp (url_rewrite_remap_request (url_map rp) (_request_url rp))
                  else rp).
Proof. unfold plugin_input. by destruct (Nat.eqb 0 (_cur rp)). Qed.

(** [run_single_remap] when there is a plugin at the cursor. *)
Lemma run_single_remap_plugin rp p raw rri :
  get_plugin_instance (url_map rp) (_cur rp) = Some p →
  p (plugin_input rp) = (raw, rri) →
  let status := normalized raw in
  let captured :=
    ((TSREMAP_DID_REMAP =? status) || (TSREMAP_DID_REMAP_STOP =? status))
    && negb (redirect rri =? 0) in
  let redirected := if captured then Some (string_get (requestUrl rri)) else remap_redirect rp in
  let counted :=
    bool_decide (redirected = None)
    && ((TSREMAP_DID_REMAP_STOP =? status) || (TSREMAP_DID_REMAP =? status)) in
  _cur (run_single_remap rp).2 = S (_cur rp)
  ∧ _rewritten (run_single_remap rp).2 = (if counted then S (_rewritten rp) else _rewritten rp)
  ∧ url_map (run_single_remap rp).2 = url_map rp
  ∧ _request_url (run_single_remap rp).2 = requestUrl rri
  ∧ history (run_single_remap rp).2
    = history rp ++ [{| inv_retcode := raw; inv_redirect := redirect rri |}]
  ∧ remap_redirect (run_single_remap rp).2 = redirected
  ∧ (run_single_remap rp).1
    = match redirected with
      | Some _ => true
      | None => (TSREMAP_NO_REMAP_STOP =? status) || (TSREMAP_DID_REMAP_STOP =? status)
                || Nat.leb (plugin_instance_count (url_map rp)) (S (_cur rp))
      end.
Proof.
  intros Hget Hp. cbn zeta. unfold run_single_remap. rewrite Hget.
  set (rp1 := if Nat.eqb 0 (_cur rp) then _ else rp).
  assert (_cur rp1 = _cur rp ∧ _rewritten rp1 = _rewritten rp ∧ url_map rp1 = url_map rp
          ∧ history rp1 = history rp ∧ remap_redirect rp1 = remap_redirect rp)
    as (Hcur & Hrew & Hmap & Hhist & Hred)
    by (unfold rp1; by destruct (Nat.eqb 0 (_cur rp))).
  assert (p {| requestUrl := _request_url rp1; redirect := 0 |} = (raw, rri)) as Hp1.
  { rewrite <- Hp. unfold plugin_input, rp1. by destruct (Nat.eqb 0 (_cur rp)). }
  destruct (run_plugin_effect rp1 p raw rri Hp1) as (Hs & Hc & Hr & Hm & Hu & Hh & Hd).
  destruct (run_plugin rp1 p) as [status rp2]. cbn [fst snd] in *. subst status.
  cbn [remap_redirect set_cur]. rewrite Hd, Hred.
  destruct (if _ && _ then Some _ else remap_redirect rp) as [target|] eqn:Hredirected;
    cbn [bool_decide andb].
  - rewrite bool_decide_eq_false_2 by done.
    cbn [fst snd _cur _rewritten url_map _request_url history remap_redirect set_cur andb].
    by rewrite ?Hc, ?Hr, ?Hm, ?Hu, ?Hh, ?Hd, ?Hcur, ?Hrew, ?Hmap, ?Hhist, ?Hred, ?Hredirected.
  - rewrite bool_decide_eq_true_2 by done. cbn [andb].
    set (count := (TSREMAP_DID_REMAP_STOP =? normalized raw)
                  || (TSREMAP_DID_REMAP =? normalized raw)).
    set (stop := (TSREMAP_NO_REMAP_STOP =? normalized raw)
                 || (TSREMAP_DID_REMAP_STOP =? normalized raw)).
    destruct count, stop;
      cbn [fst snd _cur _rewritten url_map _request_url history remap_redirect
             set_rewritten set_cur orb];
      rewrite ?Hc, ?Hcur;
      try destruct (Nat.leb _ _);
      cbn [fst snd _cur _rewritten url_map _request_url history remap_redirect
             set_rewritten set_cur orb];
      by rewrite ?Hc, ?Hr, ?Hm, ?Hu, ?Hh, ?Hd, ?Hcur, ?Hrew, ?Hmap, ?Hhist, ?Hred,
           ?Hredirected.
Qed.

(** [run_single_remap] when there is no plugin at the cursor. *)
Lemma run_single_remap_no_plugin rp :
  get_plugin_instance (url_map rp) (_cur rp) = None →
  codes_ok →
  _cur (run_single_remap rp).2 = S (_cur rp)
  ∧ _rewritten (run_single_remap rp).2 = _rewritten rp
  ∧ url_map (run_single_remap rp).2 = url_map rp
  ∧ history (run_single_remap rp).2 = history rp
  ∧ remap_redirect (run_single_remap rp).2 = remap_redirect rp
  ∧ (run_single_remap rp).1 = true.
Proof.
  intros Hget (Hd & Hs & Hds & _)%codes_ok_distinct. unfold run_single_remap. rewrite Hget.
  apply lookup_ge_None in Hget.
  rewrite (proj2 (Z.eqb_neq TSREMAP_DID_REMAP_STOP TSREMAP_NO_REMAP)) by done.
  rewrite (proj2 (Z.eqb_neq TSREMAP_DID_REMAP TSREMAP_NO_REMAP)) by done.
  rewrite (proj2 (Z.eqb_neq TSREMAP_NO_REMAP_STOP TSREMAP_NO_REMAP)) by done.
  set (rp1 := if Nat.eqb 0 (_cur rp) then _ else rp).
  assert (_cur rp1 = _cur rp ∧ _rewritten rp1 = _rewritten rp ∧ url_map rp1 = url_map rp
          ∧ history rp1 = history rp ∧ remap_redirect rp1 = remap_redirect rp)
    as (Hcur & Hrew & Hmap & Hhist & Hred)
    by (unfold rp1; by destruct (Nat.eqb 0 (_cur rp))).
  cbn [remap_redirect set_cur orb].
  destruct (remap_redirect rp1) as [target|] eqn:Hr1;
    cbn [fst snd _cur _rewritten url_map history remap_redirect set_cur];
    rewrite ?Hcur, ?Hrew, ?Hmap, ?Hhist; [by rewrite <- Hred|].
  unfold plugin_instance_count.
  destruct (Nat.leb_spec (length (plugin_inst_list (url_map rp))) (S (_cur rp)));
    cbn [fst snd _cur _rewritten url_map history remap_redirect set_cur];
    rewrite ?Hcur, ?Hrew, ?Hmap, ?Hhist, <- ?Hred; [done | lia].
Qed.

(** ** Status codes *)

(** C3, as the code has it.  [run_plugin] passes on [TSREMAP_NO_REMAP] when
    the value the plugin returned is negative, and passes on every other
    value as it is, whether it is one of the four codes or not. *)
Theorem run_plugin_status rp p :
  (run_plugin rp p).1
  = if (p {| requestUrl := _request_url rp; redirect := 0 |}).1 <? 0
    then TSREMAP_NO_REMAP
    else (p {| requestUrl := _request_url rp; redirect := 0 |}).1.
Proof.
  destruct (p {| requestUrl := _request_url rp; redirect := 0 |}) as [raw rri] eqn:Hp.
  by destruct (run_plugin_effect rp p raw rri Hp) as (-> & _).
Qed.

(** On a status that is none of the three codes it tests for, that of an
    unlisted code as well, [run_single_remap] goes on as after
    [TSREMAP_NO_REMAP]: no redirect is captured, nothing is counted, and the
    chain is done when no plugin is left. *)
Lemma run_single_remap_other_status rp p raw rri :
  get_plugin_instance (url_map rp) (_cur rp) = Some p →
  p (plugin_input rp) = (raw, rri) →
  normalized raw ≠ TSREMAP_DID_REMAP →
  normalized raw ≠ TSREMAP_DID_REMAP_STOP →
  normalized raw ≠ TSREMAP_NO_REMAP_STOP →
  remap_redirect rp = None →
  remap_redirect (run_single_remap rp).2 = None
  ∧ _rewritten (run_single_remap rp).2 = _rewritten rp
  ∧ (run_single_remap rp).1 = Nat.leb (plugin_instance_count (url_map rp)) (S (_cur rp)).
Proof.
  intros Hget Hp Hd Hds Hns Hred.
  destruct (run_single_remap_plugin rp p raw rri Hget Hp) as (_ & Hrew & _ & _ & _ & Hr & Hz).
  rewrite Hrew, Hr, Hz.
  rewrite (proj2 (Z.eqb_neq TSREMAP_DID_REMAP (normalized raw))) by done.
  rewrite (proj2 (Z.eqb_neq TSREMAP_DID_REMAP_STOP (normalized raw))) by done.
  rewrite (proj2 (Z.eqb_neq TSREMAP_NO_REMAP_STOP (normalized raw))) by done.
  cbn [orb andb]. rewrite Hred, andb_false_r. done.
Qed.

(** ** Exhaustion *)

Lemma run_calls_S n rp :
  run_calls (S n) rp
  = ((run_single_remap rp).1 :: (run_calls n (run_single_remap rp).2).1,
     (run_calls n (run_single_remap rp).2).2).
Proof.
  cbn [run_calls]. destruct (run_single_remap rp) as [zret rp']. cbn [fst snd].
  by destruct (run_calls n rp').
Qed.

Lemma run_single_remap_no_remap rp p :
  codes_ok →
  get_plugin_instance (url_map rp) (_cur rp) = Some p →
  (∀ rri, (p rri).1 = TSREMAP_NO_REMAP) →
  remap_redirect rp = None →
  _cur (run_single_remap rp).2 = S (_cur rp)
  ∧ _rewritten (run_single_remap rp).2 = _rewritten rp
  ∧ url_map (run_single_remap rp).2 = url_map rp
  ∧ remap_redirect (run_single_remap rp).2 = None
  ∧ (run_single_remap rp).1 = Nat.leb (plugin_instance_count (url_map rp)) (S (_cur rp)).
Proof.
  intros Hok Hget Hno Hred.
  pose proof Hok as (Hd & Hs & Hds & _)%codes_ok_distinct.
  destruct (p (plugin_input rp)) as [raw rri] eqn:Hp.
  pose proof (Hno (plugin_input rp)) as Hraw. rewrite Hp in Hraw. cbn [fst] in Hraw. subst raw.
  assert (normalized TSREMAP_NO_REMAP = TSREMAP_NO_REMAP) as Hnorm
    by (apply normalized_nonneg, Hok).
  destruct (run_single_remap_plugin rp p _ rri Hget Hp) as (Hc & _ & Hm & _ & _ & _ & _).
  destruct (run_single_remap_other_status rp p _ rri Hget Hp) as (Hr & Hrew & Hz);
    rewrite ?Hnorm; done.
Qed.

(** C2, as the code has it.  On a route with exactly three plugins that each
    return [TSREMAP_NO_REMAP], the first two calls of [run_single_remap]
    return [false] and the third returns [true]; no redirect is captured, the
    cursor is 3 and the rewrite counter is 0. *)
Theorem three_plugins_no_remap map (request_url : URL) :
  codes_ok →
  length (plugin_inst_list map) = 3%nat →
  (∀ p, p ∈ plugin_inst_list map → ∀ rri, (p rri).1 = TSREMAP_NO_REMAP) →
  (run_calls 3 (RemapPlugins_new map request_url)).1 = [false; false; true]
  ∧ _rewritten (run_calls 3 (RemapPlugins_new map request_url)).2 = O
  ∧ _cur (run_calls 3 (RemapPlugins_new map request_url)).2 = 3%nat
  ∧ remap_redirect (run_calls 3 (RemapPlugins_new map request_url)).2 = None.
Proof.
  intros Hok Hlen Hno.
  destruct map as [[|p1 [|p2 [|p3 [|p4 ps]]]] base]; try done. clear Hlen.
  cbn [plugin_inst_list] in Hno.
  set (map := {| plugin_inst_list := [p1; p2; p3]; url_rewrite_remap_request := base |}).
  set (rp0 := RemapPlugins_new map request_url).
  destruct (run_single_remap_no_remap rp0 p1 Hok) as (Hc1 & Hw1 & Hm1 & Hr1 & Hz1);
    [done | apply Hno; repeat constructor | done |].
  set (rp1 := (run_single_remap rp0).2) in *.
  destruct (run_single_remap_no_remap rp1 p2 Hok) as (Hc2 & Hw2 & Hm2 & Hr2 & Hz2);
    [by rewrite Hm1, Hc1 | apply Hno; repeat constructor | done |].
  set (rp2 := (run_single_remap rp1).2) in *.
  destruct (run_single_remap_no_remap rp2 p3 Hok) as (Hc3 & Hw3 & Hm3 & Hr3 & Hz3);
    [by rewrite Hm2, Hm1, Hc2, Hc1 | apply Hno; repeat constructor | done |].
  rewrite !run_calls_S. cbn [run_calls fst snd].
  fold rp1. fold rp2.
  rewrite Hz1, Hz2, Hz3, Hw3, Hw2, Hw1, Hc3, Hc2, Hc1, Hr3, Hm2, Hm1. done.
Qed.

(** ** The rewrite counter *)

Lemma run_single_remap_counts rp :
  codes_ok →
  remap_redirect rp = None →
  _rewritten rp = length (filter (λ i, did_remap i && no_redirect i) (history rp)) →
  _rewritten (run_single_remap rp).2
  = length (filter (λ i, did_remap i && no_redirect i) (history (run_single_remap rp).2))
  ∧ ((run_single_remap rp).1 = false → remap_redirect (run_single_remap rp).2 = None).
Proof.
  intros Hok Hred Hcount.
  destruct (get_plugin_instance (url_map rp) (_cur rp)) as [p|] eqn:Hget.
  - destruct (p (plugin_input rp)) as [raw rri] eqn:Hp.
    destruct (run_single_remap_plugin rp p raw rri Hget Hp)
      as (_ & Hrew & _ & _ & Hhist & Hr & Hz).
    rewrite Hrew, Hhist, Hr, Hz, Hred. clear Hrew Hhist Hr Hz.
    rewrite filter_app, length_app, <- Hcount.
    cbn [filter list_filter]. unfold did_remap, no_redirect. cbn [inv_retcode inv_redirect].
    pose proof Hok as (Hd & Hs & Hds & _)%codes_ok_distinct.
    destruct Hok as (_ & _ & Hdid & _ & Hstop).
    destruct (Z.ltb_spec raw 0) as [Hneg|Hpos].
    + rewrite (normalized_neg raw Hneg).
      rewrite (proj2 (Z.eqb_neq TSREMAP_DID_REMAP TSREMAP_NO_REMAP)) by done.
      rewrite (proj2 (Z.eqb_neq TSREMAP_DID_REMAP_STOP TSREMAP_NO_REMAP)) by done.
      rewrite (proj2 (Z.eqb_neq raw TSREMAP_DID_REMAP)) by lia.
      rewrite (proj2 (Z.eqb_neq raw TSREMAP_DID_REMAP_STOP)) by lia.
      cbn [orb andb]. rewrite andb_false_r.
      simpl. split; [lia | done].
    + rewrite (normalized_nonneg raw Hpos).
      rewrite (Z.eqb_sym TSREMAP_DID_REMAP raw), (Z.eqb_sym TSREMAP_DID_REMAP_STOP raw).
      destruct (raw =? TSREMAP_DID_REMAP), (raw =? TSREMAP_DID_REMAP_STOP),
        (redirect rri =? 0); cbn [orb andb negb];
        rewrite ?bool_decide_eq_true_2, ?bool_decide_eq_false_2 by done; simpl;
        (split; [lia | done]).
  - destruct (run_single_remap_no_plugin rp Hget Hok) as (_ & Hrew & _ & Hhist & _ & Hz).
    by rewrite Hrew, Hhist, Hz.
Qed.

(** C4, as the code has it.  After every call of a chain, the rewrite counter
    is the number of the plugin invocations so far that returned
    [TSREMAP_DID_REMAP] or [TSREMAP_DID_REMAP_STOP] and left the [redirect]
    flag clear: an invocation on which a redirect is captured is not
    counted. *)
Theorem rewritten_counts map (request_url : URL) rp zret :
  codes_ok →
  chain (RemapPlugins_new map request_url) rp zret →
  _rewritten rp = length (filter (λ i, did_remap i && no_redirect i) (history rp)).
Proof.
  intros Hok Hchain.
  assert (_rewritten rp = length (filter (λ i, did_remap i && no_redirect i) (history rp))
          ∧ (zret = false → remap_redirect rp = None)) as [Hcount _]; [|done].
  induction Hchain as [|rp _ [IHcount IHred]].
  - by apply run_single_remap_counts.
  - apply run_single_remap_counts; auto.
Qed.

(** ** Redirects *)

(** C5.  When the plugin at the cursor leaves the [redirect] flag set and the
    status [run_plugin] passes on is [TSREMAP_DID_REMAP] or
    [TSREMAP_DID_REMAP_STOP], the call of [run_single_remap] returns [true],
    however many plugins are left and whether or not the status asks to stop.
    The redirect target is the text of the URL of the request as the plugin
    left it, the rewrite counter is not touched, and the cursor has moved
    past the plugin. *)
Theorem redirect_ends_chain rp p raw rri :
  get_plugin_instance (url_map rp) (_cur rp) = Some p →
  p (plugin_input rp) = (raw, rri) →
  redirect rri ≠ 0 →
  normalized raw = TSREMAP_DID_REMAP ∨ normalized raw = TSREMAP_DID_REMAP_STOP →
  (run_single_remap rp).1 = true
  ∧ _request_url (run_single_remap rp).2 = requestUrl rri
  ∧ remap_redirect (run_single_remap rp).2
    = Some (string_get (_request_url (run_single_remap rp).2))
  ∧ _rewritten (run_single_remap rp).2 = _rewritten rp
  ∧ _cur (run_single_remap rp).2 = S (_cur rp).
Proof.
  intros Hget Hp Hflag Hstatus.
  destruct (run_single_remap_plugin rp p raw rri Hget Hp)
    as (Hcur & Hrew & _ & Hurl & _ & Hr & Hz).
  rewrite Hcur, Hrew, Hurl, Hr, Hz. clear Hcur Hrew Hurl Hr Hz.
  assert ((TSREMAP_DID_REMAP =? normalized raw) || (TSREMAP_DID_REMAP_STOP =? normalized raw)
          = true) as ->.
  { apply orb_true_iff. rewrite !Z.eqb_eq. destruct Hstatus as [-> | ->]; auto. }
  rewrite (proj2 (Z.eqb_neq (redirect rri) 0)) by done. cbn [negb andb].
  by rewrite bool_decide_eq_false_2.
Qed.

End RemapFacts.

(** ** The chain theorems on the example routes *)

Section RemapExamples.

Import RemapPlugins Examples.
#[local] Existing Instance released_codes.
#[local] Existing Instance text_url.

Lemma released_codes_ok : codes_ok.
Proof.
  unfold codes_ok; simpl. split; [|lia].
  repeat (apply NoDup_cons; split; [rewrite ?elem_of_cons, elem_of_nil; lia|]).
  apply NoDup_nil_2.
Qed.

(** C2 as stated fails: with three plugins that return [TSREMAP_NO_REMAP] the
    third call already returns [true]. *)
Lemma three_plugins_third_call_done :
  ¬ ∀ (map : url_mapping (list Z)) (request_url : list Z),
      length (plugin_inst_list map) = 3%nat →
      (∀ p, p ∈ plugin_inst_list map →
            ∀ rri, (p rri).1 = TSREMAP_NO_REMAP ∧ redirect (p rri).2 = 0) →
      (run_calls 4 (RemapPlugins_new map request_url)).1 = [false; false; false; true].
Proof.
  intros Hclaim.
  specialize (Hclaim (route [answers 0 0; answers 0 0; answers 0 0]) [47; 97] eq_refl).
  assert ((run_calls 4 (RemapPlugins_new (route [answers 0 0; answers 0 0; answers 0 0])
                          [47; 97])).1
          = [false; false; true; true]) as Hcalls by (vm_compute; reflexivity).
  rewrite Hcalls in Hclaim. clear Hcalls.
  assert ([false; false; true; true] = [false; false; false; true]) as [=].
  apply Hclaim. intros p Hin rri. cbn [route plugin_inst_list] in Hin.
  repeat (apply elem_of_cons in Hin as [-> | Hin]; [split; reflexivity|]).
  apply elem_of_nil in Hin. destruct Hin.
Qed.

Lemma three_plugins_no_remap_witness :
  codes_ok
  ∧ length (plugin_inst_list (route [answers 0 0; appends 98 0 1; answers 0 0])) = 3%nat
  ∧ (∀ p, p ∈ plugin_inst_list (route [answers 0 0; appends 98 0 1; answers 0 0]) →
          ∀ rri, (p rri).1 = TSREMAP_NO_REMAP)
  ∧ (run_calls 3 (RemapPlugins_new (route [answers 0 0; appends 98 0 1; answers 0 0]) [47; 97])).1
    = [false; false; true]
  ∧ _rewritten
      (run_calls 3 (RemapPlugins_new (route [answers 0 0; appends 98 0 1; answers 0 0]) [47; 97])).2
    = O
  ∧ _cur
      (run_calls 3 (RemapPlugins_new (route [answers 0 0; appends 98 0 1; answers 0 0]) [47; 97])).2
    = 3%nat
  ∧ remap_redirect
      (run_calls 3 (RemapPlugins_new (route [answers 0 0; appends 98 0 1; answers 0 0]) [47; 97])).2
    = None.
Proof.
  assert (∀ p, p ∈ plugin_inst_list (route [answers 0 0; appends 98 0 1; answers 0 0]) →
               ∀ rri, (p rri).1 = TSREMAP_NO_REMAP) as Hno.
  { intros p Hin rri. simpl in Hin.
    repeat (apply elem_of_cons in Hin as [-> | Hin]; [reflexivity|]).
    apply elem_of_nil in Hin. destruct Hin. }
  split; [exact released_codes_ok|]. split; [reflexivity|]. split; [exact Hno|].
  exact (three_plugins_no_remap (route [answers 0 0; appends 98 0 1; answers 0 0]) [47; 97]
           released_codes_ok eq_refl Hno).
Defined.

(** C3 as stated fails: the unlisted code 7 is passed on as it is. *)
Lemma run_plugin_keeps_unlisted_code :
  ¬ ∀ (rp : RemapPlugins (list Z)) (p : RemapPluginInst (list Z)),
      (p {| requestUrl := _request_url rp; redirect := 0 |}).1
        ∉ [TSREMAP_NO_REMAP; TSREMAP_DID_REMAP; TSREMAP_DID_REMAP_STOP; TSREMAP_NO_REMAP_STOP] →
      (run_plugin rp p).1 = TSREMAP_NO_REMAP.
Proof.
  intros Hclaim.
  specialize (Hclaim (RemapPlugins_new (route [answers 7 0]) [47; 97]) (answers 7 0)).
  assert ((run_plugin (RemapPlugins_new (route [answers 7 0]) [47; 97]) (answers 7 0)).1 = 7)
    as Hstatus by (vm_compute; reflexivity).
  rewrite Hstatus in Hclaim. clear Hstatus.
  assert (7 = 0) as [=]. apply Hclaim. cbn.
  rewrite !not_elem_of_cons, elem_of_nil. lia.
Qed.

(** C4 as stated fails: an invocation that returns [TSREMAP_DID_REMAP] and
    sets the [redirect] flag is not counted. *)
Lemma redirect_is_not_counted :
  ¬ ∀ (map : url_mapping (list Z)) (request_url : list Z) (rp : RemapPlugins (list Z))
      (zret : bool),
      chain (RemapPlugins_new map request_url) rp zret →
      _rewritten rp = length (filter did_remap (history rp)).
Proof.
  intros Hclaim.
  pose proof (Hclaim (route [answers 1 1; answers 0 0]) [47; 97] _ _ (chain_first _)) as Hcount.
  vm_compute in Hcount. discriminate Hcount.
Qed.

Lemma rewritten_counts_witness :
  codes_ok
  ∧ chain rewrite_then_redirect
      (run_single_remap (run_single_remap rewrite_then_redirect).2).2
      (run_single_remap (run_single_remap rewrite_then_redirect).2).1
  ∧ _rewritten (run_single_remap (run_single_remap rewrite_then_redirect).2).2
    = length (filter (λ i, did_remap i && no_redirect i)
                (history (run_single_remap (run_single_remap rewrite_then_redirect).2).2)).
Proof.
  assert (chain rewrite_then_redirect
            (run_single_remap (run_single_remap rewrite_then_redirect).2).2
            (run_single_remap (run_single_remap rewrite_then_redirect).2).1) as Hchain.
  { apply chain_next.
    assert ((run_single_remap rewrite_then_redirect).1 = false) as Hz
      by (vm_compute; reflexivity).
    rewrite <- Hz. apply chain_first. }
  split; [exact released_codes_ok|]. split; [exact Hchain|].
  exact (rewritten_counts _ _ _ _ released_codes_ok Hchain).
Defined.

Lemma redirect_ends_chain_witness :
  get_plugin_instance (url_map (RemapPlugins_new (route [appends 98 3 1; answers 1 0]) [47; 97]))
    (_cur (RemapPlugins_new (route [appends 98 3 1; answers 1 0]) [47; 97]))
  = Some (appends 98 3 1)
  ∧ appends 98 3 1 (plugin_input (RemapPlugins_new (route [appends 98 3 1; answers 1 0]) [47; 97]))
    = (3, {| requestUrl := [47; 116; 47; 97; 98]; redirect := 1 |})
  ∧ (1 : Z) ≠ 0
  ∧ (normalized 3 = TSREMAP_DID_REMAP ∨ normalized 3 = TSREMAP_DID_REMAP_STOP)
  ∧ (run_single_remap (RemapPlugins_new (route [appends 98 3 1; answers 1 0]) [47; 97])).1 = true
  ∧ remap_redirect
      (run_single_remap (RemapPlugins_new (route [appends 98 3 1; answers 1 0]) [47; 97])).2
    = Some [47; 116; 47; 97; 98].
Proof.
  assert ((1 : Z) ≠ 0) as Hflag by lia.
  assert (normalized 3 = TSREMAP_DID_REMAP ∨ normalized 3 = TSREMAP_DID_REMAP_STOP) as Hstatus
    by (right; reflexivity).
  split; [reflexivity|]. split; [reflexivity|]. split; [exact Hflag|]. split; [exact Hstatus|].
  pose proof (redirect_ends_chain
                (RemapPlugins_new (route [appends 98 3 1; answers 1 0]) [47; 97])
                (appends 98 3 1) 3 {| requestUrl := [47; 116; 47; 97; 98]; redirect := 1 |}
                eq_refl eq_refl Hflag Hstatus) as (Hz & Hurl & Hred & _).
  split; [exact Hz|]. rewrite Hred, Hurl. reflexivity.
Defined.

End RemapExamples.

(** * More facts about the trie *)

Section TrieMoreFacts.

Import Trie TrieEntries.
Context {T : Type}.
Implicit Types (n child : Node T) (t : Trie T) (k : list Z) (v : T).

#[local] Opaque N_NODE_CHILDREN.

(** ** Induction on the nodes *)

Lemma Node_ind_children (P : Node T → Prop) :
  (∀ n, Forall (λ c, match c with
                     | Some child => P child
                     | None => True
                     end) (children n) → P n) →
  ∀ n, P n.
Proof.
  intros Hstep. fix IH 1. intros [val occ rk ch]. apply Hstep. simpl.
  induction ch as [|c ch IHch]; constructor; [|exact IHch].
  destruct c as [child|]; [apply IH | exact I].
Qed.

(** ** The nodes on a path *)

Lemma find_node_Node_Clear k m :
  find_node (T:=T) Node_Clear k = Some m → k = [] ∧ m = Node_Clear.
Proof.
  destruct k as [|c k]; cbn [find_node]; [by intros [= <-]|].
  by rewrite GetChild_Node_Clear.
Qed.

Lemma find_node_app n k1 k2 :
  find_node n (k1 ++ k2) = m ← find_node n k1; find_node m k2.
Proof.
  revert n. induction k1 as [|c k1 IH]; intros n; cbn [find_node app]; [done|].
  destruct (GetChild n c) as [child|]; simpl; [apply IH | done].
Qed.

Lemma wf_find_node n k m : wf_node n = true → find_node n k = Some m → wf_node m = true.
Proof.
  revert n. induction k as [|c k IH]; intros n Hwf; cbn [find_node]; [by intros [= <-]|].
  destruct (GetChild n c) as [child|] eqn:Hc; simpl; [|done].
  apply IH. apply wf_node_unfold in Hwf as (_ & _ & Hch). by apply (Hch c).
Qed.

Lemma visited_lookup k : ∀ n (i : nat) m,
  visited n k !! i = Some m ↔ (i ≤ length k)%nat ∧ find_node n (take i k) = Some m.
Proof.
  assert (∀ n m (l : list (Node T)) (k' : list Z),
            (n :: l) !! O = Some m ↔ (0 ≤ length k')%nat ∧ find_node n (take 0 k') = Some m)
    as Hroot.
  { intros n m l k'. rewrite take_0. cbn [find_node lookup list_lookup].
    split; [intros ->; split; [lia | done] | by intros [_ ?]]. }
  induction k as [|c k IH]; intros n [|i] m; cbn [visited]; try apply Hroot.
  - rewrite lookup_cons, lookup_nil. cbn [length]. split; [done | intros [? _]; lia].
  - rewrite lookup_cons. cbn [take find_node length].
    destruct (GetChild n c) as [child|]; simpl.
    + rewrite IH. split; intros [? ?]; (split; [lia | done]).
    + rewrite lookup_nil. split; [done | by intros [_ ?]].
Qed.

(** ** The candidate after a list of nodes *)

Lemma fold_candidate_rule (l : list (Node T)) :
  match fold_left candidate_rule l None with
  | None => ∀ (j : nat) g, l !! j = Some g → occupied g = false
  | Some f =>
      ∃ i : nat, l !! i = Some f ∧ occupied f = true
        ∧ ∀ (j : nat) g, l !! j = Some g → occupied g = true →
            rank f <= rank g ∧ ((i < j)%nat → rank f < rank g)
  end.
Proof.
  induction l as [|x l IH] using rev_ind; [by intros j g; rewrite lookup_nil|].
  rewrite fold_left_app. cbn [fold_left].
  assert (∀ (j : nat) g, (l ++ [x]) !! j = Some g →
            (l !! j = Some g ∧ (j < length l)%nat) ∨ (j = length l ∧ g = x)) as Hsplit.
  { intros j g Hj. destruct (decide (j < length l)%nat) as [Hlt|Hge].
    - left. by rewrite lookup_app_l in Hj.
    - right. rewrite lookup_app_r in Hj by lia.
      destruct (j - length l)%nat as [|d] eqn:Hd; simpl in Hj; [|by rewrite lookup_nil in Hj].
      split; [lia | congruence]. }
  assert ((l ++ [x]) !! length l = Some x) as Hlast
    by (rewrite lookup_app_r, Nat.sub_diag by lia; done).
  destruct (fold_left candidate_rule l None) as [f|]; unfold candidate_rule.
  - destruct IH as (i & Hi & Hocc & Hbest).
    pose proof (lookup_lt_Some _ _ _ Hi) as Hlt.
    destruct (occupied x) eqn:Hx; cbn [andb].
    + destruct (Z.leb_spec (rank x) (rank f)).
      * exists (length l). split_and!; [done | done |].
        intros j g [[Hj Hjl] | [-> ->]]%Hsplit Hg; [|lia].
        destruct (Hbest j g Hj Hg). lia.
      * exists i. split_and!; [by rewrite lookup_app_l | done |].
        intros j g [[Hj Hjl] | [-> ->]]%Hsplit Hg; [by apply Hbest | lia].
    + exists i. split_and!; [by rewrite lookup_app_l | done |].
      intros j g [[Hj Hjl] | [-> ->]]%Hsplit Hg; [by apply Hbest | congruence].
  - destruct (occupied x) eqn:Hx.
    + exists (length l). split_and!; [done | done |].
      intros j g [[Hj Hjl] | [-> ->]]%Hsplit Hg; [|lia].
      rewrite (IH j g Hj) in Hg. done.
    + intros j g [[Hj Hjl] | [-> ->]]%Hsplit; [by apply (IH j) | done].
Qed.

(** ** What Search returns *)

Lemma prefix_of_take k (i : nat) : take i k `prefix_of` k.
Proof. exists (drop i k). by rewrite take_drop. Qed.

Lemma prefix_of_is_take (q k : list Z) :
  q `prefix_of` k → (length q ≤ length k)%nat ∧ take (length q) k = q.
Proof. intros [s ->]. rewrite length_app, take_app_length. split; [lia | done]. Qed.

(** The two outcomes of [Search] on a well-shaped trie. *)
Lemma Search_cases t key key_len k :
  wf_node (m_root t) = true →
  key_of key key_len = Some k →
  (Search t key key_len = Some None ∧ ∀ p, p `prefix_of` k → stored t p = false)
  ∨ (∃ p f v,
       p `prefix_of` k ∧ find_node (m_root t) p = Some f ∧ occupied f = true
       ∧ value f = Some v
       ∧ Search t key key_len = Some (Some v)
       ∧ ∀ q g, q `prefix_of` k → find_node (m_root t) q = Some g → occupied g = true →
           rank f <= rank g ∧ ((length p < length q)%nat → rank f < rank g)).
Proof.
  intros Hwf Hk. rewrite (Search_key _ _ _ _ Hk).
  pose proof (fold_candidate_rule (visited (m_root t) k)) as Hfold.
  destruct (fold_left candidate_rule (visited (m_root t) k) None) as [f|]; cbn [found_value].
  - right. destruct Hfold as (i & Hi & Hocc & Hbest).
    apply visited_lookup in Hi as [Hle Hfind].
    pose proof (wf_find_node _ _ _ Hwf Hfind) as (_ & Hval & _)%wf_node_unfold.
    destruct (Hval Hocc) as [v Hv].
    exists (take i k), f, v. split_and!; [apply prefix_of_take | done | done | done | by rewrite Hv |].
    intros q g [Hlen Hq]%prefix_of_is_take Hg Hgocc.
    rewrite length_take, Nat.min_l by lia.
    apply (Hbest (length q) g); [|done].
    apply visited_lookup. by rewrite Hq.
  - left. split; [done|]. intros p [Hlen Hp]%prefix_of_is_take. unfold stored.
    destruct (find_node (m_root t) p) as [g|] eqn:Hg; [|done].
    apply (Hfold (length p) g). apply visited_lookup. by rewrite Hp.
Qed.

(** X1.  When [Search], on a well-shaped trie and arguments that stand for a
    key, returns a non-null pointer, this is the value of an occupied node at
    a prefix of the key; no stored prefix of the key has a smaller rank, and
    every longer stored prefix has a larger rank. *)
Theorem Search_hit t key key_len k v :
  wf_node (m_root t) = true →
  key_of key key_len = Some k →
  Search t key key_len = Some (Some v) →
  ∃ p f,
    p `prefix_of` k ∧ find_node (m_root t) p = Some f ∧ occupied f = true ∧ value f = Some v
    ∧ ∀ q g, q `prefix_of` k → find_node (m_root t) q = Some g → occupied g = true →
        rank f <= rank g ∧ ((length p < length q)%nat → rank f < rank g).
Proof.
  intros Hwf Hk Hs.
  destruct (Search_cases t key key_len k Hwf Hk)
    as [[Hnone _] | (p & f & v' & Hp & Hf & Hocc & Hv & Hsome & Hbest)]; [congruence|].
  assert (v' = v) as -> by congruence. by exists p, f.
Qed.

(** X2.  On a well-shaped trie and arguments that stand for a key, [Search]
    returns [nullptr] exactly when no prefix of the key, the empty one and
    the key itself included, is stored. *)
Theorem Search_miss_iff t key key_len k :
  wf_node (m_root t) = true →
  key_of key key_len = Some k →
  Search t key key_len = Some None ↔ ∀ p, p `prefix_of` k → stored t p = false.
Proof.
  intros Hwf Hk.
  destruct (Search_cases t key key_len k Hwf Hk)
    as [[Hnone Hfree] | (p & f & v' & Hp & Hf & Hocc & Hv & Hsome & Hbest)].
  - done.
  - split; [congruence|]. intros Hfree. specialize (Hfree p Hp).
    unfold stored in Hfree. rewrite Hf in Hfree. congruence.
Qed.

(** ** Search returns pointers of the value list *)

Lemma find_node_values k : ∀ n m v,
  find_node n k = Some m → occupied m = true → value m = Some v → v ∈ node_values n.
Proof.
  induction k as [|c k IH]; intros n m v; cbn [find_node].
  - intros [= <-] Hocc Hv. rewrite node_values_unfold, Hocc, Hv. simpl. apply elem_of_cons. by left.
  - destruct (GetChild n c) as [child|] eqn:Hc; simpl; [|done].
    intros Hfind Hocc Hv. rewrite node_values_unfold. apply elem_of_app. right.
    apply list_elem_of_In, in_concat. exists (node_values child). split.
    + apply in_map_iff. exists (Some child). split; [done|].
      apply list_elem_of_In. apply GetChild_lookup in Hc. by eapply list_elem_of_lookup_2.
    + apply list_elem_of_In. by eapply IH.
Qed.

Lemma Search_visit_cases (found_node : option (Node T)) n :
  Search_visit found_node n = found_node
  ∨ (Search_visit found_node n = Some n ∧ occupied n = true).
Proof.
  unfold Search_visit. destruct (occupied n); [|by left].
  destruct found_node as [f|]; [|by right]. destruct (rank n <=? rank f); auto.
Qed.

Lemma Search_walk_found key key_len : ∀ i (found_node : option (Node T)) n f,
  Search_walk key key_len i found_node n = Some (Some f) →
  found_node = Some f ∨ (occupied f = true ∧ ∃ k, find_node n k = Some f).
Proof.
  assert (∀ (found_node : option (Node T)) n f,
            Search_visit found_node n = Some f →
            found_node = Some f ∨ (occupied f = true ∧ ∃ k, find_node n k = Some f)) as Hhere.
  { intros found_node n f Hf.
    destruct (Search_visit_cases found_node n) as [Heq | [Heq Hocc]]; [left; congruence|].
    right. rewrite Heq in Hf. injection Hf as <-. split; [done|]. by exists []. }
  induction key as [|c key IH]; intros i found_node n f; cbn [Search_walk];
    destruct (i =? key_len); try done; try (intros [= Hf]; by apply Hhere).
  destruct (GetChild n c) as [child|] eqn:Hc; [|intros [= Hf]; by apply Hhere].
  intros [Hf | [Hocc [k Hk]]]%IH; [by apply Hhere|].
  right. split; [done|]. exists (c :: k). cbn [find_node]. by rewrite Hc.
Qed.

(** X3.  On a trie built by the interface, a non-null pointer that [Search]
    returns, whatever its arguments, is an entry of the value list: [Search]
    hands out only values the trie holds. *)
Theorem Search_returns_held_value t key key_len v :
  reachable t →
  Search t key key_len = Some (Some v) →
  v ∈ m_value_list t.
Proof.
  intros [Hwf Hperm]%reachable_inv. unfold Search.
  destruct (_CheckArgs key key_len) as [len|]; simpl; [|done].
  destruct (Search_walk _ _ _ _ _) as [[f|]|] eqn:Hwalk; simpl; try done.
  intros [= Hv]. rewrite Hperm.
  apply Search_walk_found in Hwalk as [? | [Hocc [k Hk]]]; [done|].
  by eapply find_node_values.
Qed.

(** ** Insert as an update of the entries *)

Lemma entry_at_Node_Clear k : entry_at (T:=T) Node_Clear k = None.
Proof.
  unfold entry_at. destruct (find_node Node_Clear k) as [m|] eqn:Hm; [|done].
  by apply find_node_Node_Clear in Hm as [_ ->].
Qed.

Lemma entry_at_cons n c k :
  entry_at n (c :: k) = child ← GetChild n c; entry_at child k.
Proof. unfold entry_at. cbn [find_node]. by destruct (GetChild n c). Qed.

Lemma entry_at_default n c k :
  entry_at n (c :: k) = entry_at (default Node_Clear (GetChild n c)) k.
Proof.
  rewrite entry_at_cons. destruct (GetChild n c) as [child|]; simpl; [done|].
  by rewrite entry_at_Node_Clear.
Qed.

Lemma GetChild_slot n c c' : slot c = slot c' → GetChild n c = GetChild n c'.
Proof. unfold GetChild. by intros ->. Qed.

Lemma GetChild_set_child_ne n c c' child :
  slot c ≠ slot c' → GetChild (set_child n c child) c' = GetChild n c'.
Proof. intros Hne. unfold GetChild, set_child; simpl. by rewrite list_lookup_insert_ne. Qed.

Lemma insert_key_flag k : ∀ n v rk,
  (insert_key n k v rk).2 = negb (bool_decide (is_Some (entry_at n k))).
Proof.
  induction k as [|c k IH]; intros n v rk.
  - cbn [insert_key]. unfold Insert_store, entry_at. cbn [find_node]. simpl.
    by destruct (occupied n).
  - cbn [insert_key]. rewrite entry_at_default. rewrite <- (IH _ v rk).
    by destruct (insert_key _ k v rk).
Qed.

Lemma insert_key_entry k : ∀ n v rk,
  wf_node n = true → (insert_key n k v rk).2 = true →
  entry_at (insert_key n k v rk).1 k = Some (Some v, rk).
Proof.
  induction k as [|c k IH]; intros n v rk Hwf.
  - cbn [insert_key]. unfold Insert_store, entry_at. cbn [find_node]. simpl.
    by destruct (occupied n).
  - cbn [insert_key]. specialize (IH _ v rk (wf_node_child n c Hwf)).
    destruct (insert_key _ k v rk) as [child ok]. cbn [fst snd] in *. intros Hok.
    apply wf_node_unfold in Hwf as (Hlen & _ & _).
    rewrite entry_at_cons, GetChild_set_child by done. simpl. by apply IH.
Qed.

Lemma insert_key_other k : ∀ n k' v rk,
  wf_node n = true → key_bytes k' ≠ key_bytes k →
  entry_at (insert_key n k v rk).1 k' = entry_at n k'.
Proof.
  induction k as [|c k IH]; intros n k' v rk Hwf Hne.
  - cbn [insert_key]. destruct k' as [|c' k']; [done|].
    rewrite !entry_at_cons. unfold Insert_store. by destruct (occupied n).
  - cbn [insert_key]. specialize (IH (default Node_Clear (GetChild n c))).
    destruct (insert_key _ k v rk) as [child ok] eqn:Hins. cbn [fst].
    destruct k' as [|c' k']; [done|].
    pose proof Hwf as (Hlen & _ & _)%wf_node_unfold.
    destruct (decide (slot c = slot c')) as [Heq|Hslot].
    + rewrite entry_at_cons, <- (GetChild_slot _ c c') by done.
      rewrite GetChild_set_child by done. simpl.
      rewrite (entry_at_default n c'), <- (GetChild_slot n c c') by done.
      specialize (IH k' v rk (wf_node_child n c Hwf)). rewrite Hins in IH. apply IH.
      intros Hk. apply Hne. unfold key_bytes in *. cbn [fmap list_fmap]. by rewrite Heq, Hk.
    + by rewrite !entry_at_cons, GetChild_set_child_ne.
Qed.

(** X4.  For arguments that stand for a key, [Insert] returns, and it
    returns [true] exactly when the key was not stored. *)
Theorem Insert_succeeds_iff_fresh t key key_len k v rk :
  key_of key key_len = Some k →
  ∃ t', Insert t key v rk key_len = Some (negb (stored t k), t').
Proof.
  intros Hk. rewrite (Insert_key _ _ _ _ _ _ Hk). eexists. f_equal. f_equal.
  rewrite insert_key_flag. unfold stored, entry_at.
  destruct (find_node (m_root t) k) as [m|]; simpl; [|done]. by destruct (occupied m).
Qed.

(** X5.  A successful [Insert] on a well-shaped trie puts the value and the
    rank under the key and leaves the entry under every other key as it was;
    keys are told apart by their characters as unsigned bytes. *)
Theorem Insert_updates_one_entry t key key_len k v rk t' :
  wf_node (m_root t) = true →
  key_of key key_len = Some k →
  Insert t key v rk key_len = Some (true, t') →
  entry t' k = Some (Some v, rk)
  ∧ ∀ k', key_bytes k' ≠ key_bytes k → entry t' k' = entry t k'.
Proof.
  intros Hwf Hk. rewrite (Insert_key _ _ _ _ _ _ Hk). intros [= Hok <-].
  unfold entry. cbn [m_root]. split.
  - by apply insert_key_entry.
  - intros k' Hne. by apply insert_key_other.
Qed.

(** ** Keys as unsigned bytes *)

Lemma key_bytes_walk k : ∀ k' n v rk,
  key_bytes k = key_bytes k' →
  visited n k = visited n k' ∧ insert_key n k v rk = insert_key n k' v rk.
Proof.
  unfold key_bytes.
  induction k as [|c k IH]; intros [|c' k'] n v rk Hb; try done.
  injection Hb as Hc Hb. cbn [visited insert_key].
  rewrite (GetChild_slot n c c' Hc).
  assert (∀ child, set_child n c child = set_child n c' child) as Hset
    by (intros child; unfold set_child; by rewrite Hc).
  split.
  - destruct (GetChild n c') as [child|]; [|done]. f_equal. by apply IH.
  - destruct (IH k' (default Node_Clear (GetChild n c')) v rk Hb) as [_ ->].
    destruct (insert_key _ k' v rk). by rewrite Hset.
Qed.

(** X6.  [Search] and [Insert] depend on their key arguments only through
    the characters of the key, taken as unsigned bytes: two calls whose
    arguments stand for keys with the same bytes (whatever lies behind the
    key in the array, and whether a character is given as signed or
    unsigned) return the same. *)
Theorem same_bytes_same_result t key key_len k key' key_len' k' v rk :
  key_of key key_len = Some k →
  key_of key' key_len' = Some k' →
  key_bytes k = key_bytes k' →
  Search t key key_len = Search t key' key_len'
  ∧ Insert t key v rk key_len = Insert t key' v rk key_len'.
Proof.
  intros Hk Hk' Hb.
  rewrite (Search_key _ _ _ _ Hk), (Search_key _ _ _ _ Hk').
  rewrite (Insert_key _ _ _ _ _ _ Hk), (Insert_key _ _ _ _ _ _ Hk').
  by destruct (key_bytes_walk k k' (m_root t) v rk Hb) as [-> ->].
Qed.

(** ** Empty *)

Lemma concat_map_nil {A B : Type} (f : A → list B) (l : list A) :
  (∀ x, x ∈ l → f x = []) → concat (map f l) = [].
Proof.
  induction l as [|x l IH]; intros Hall; [done|]. cbn [map concat].
  rewrite (Hall x), IH; [done | | apply elem_of_cons; by left].
  intros y Hy. apply Hall, elem_of_cons. by right.
Qed.

Lemma node_values_nil n :
  wf_node n = true →
  node_values n = [] ↔ ∀ k m, find_node n k = Some m → occupied m = false.
Proof.
  intros Hwf. split.
  - intros Hnil k m Hfind. destruct (occupied m) eqn:Hocc; [|done].
    pose proof (wf_find_node _ _ _ Hwf Hfind) as (_ & Hval & _)%wf_node_unfold.
    destruct (Hval Hocc) as [v Hv].
    pose proof (find_node_values k n m v Hfind Hocc Hv) as Hin.
    rewrite Hnil in Hin. by apply elem_of_nil in Hin.
  - revert Hwf. induction n as [n IH] using Node_ind_children. intros Hwf Hfree.
    rewrite node_values_unfold, (Hfree [] n eq_refl). cbn [app].
    apply concat_map_nil. intros [child|] Hin; [|done]. cbn [child_values].
    apply list_elem_of_lookup in Hin as [i Hi].
    pose proof Hwf as (Hlen & _ & Hch)%wf_node_unfold.
    assert (GetChild n (Z.of_nat i) = Some child) as Hc.
    { apply GetChild_lookup. unfold slot.
      pose proof (lookup_lt_Some _ _ _ Hi) as Hlt. rewrite Hlen, N_NODE_CHILDREN_eq in Hlt.
      by rewrite Z.mod_small, Nat2Z.id by lia. }
    rewrite Forall_forall in IH. apply (IH (Some child)).
    + by eapply list_elem_of_lookup_2.
    + by apply (Hch (Z.of_nat i)).
    + intros k m Hfind. apply (Hfree (Z.of_nat i :: k)). cbn [find_node]. by rewrite Hc.
Qed.

(** X7.  On a trie built by the interface, [Empty] returns [true] exactly
    when no key is stored. *)
Theorem Empty_iff_nothing_stored t :
  reachable t →
  Empty t = true ↔ ∀ k, stored t k = false.
Proof.
  intros [Hwf Hperm]%reachable_inv.
  assert (Empty t = true ↔ node_values (m_root t) = []) as ->.
  { unfold Empty, empty. split.
    - destruct (m_value_list t); [|done]. intros _. symmetry. by apply Permutation_nil_l.
    - intros Hnil. rewrite Hnil in Hperm. apply Permutation_nil_r in Hperm. by rewrite Hperm. }
  rewrite (node_values_nil _ Hwf). unfold stored. split.
  - intros Hfree k. destruct (find_node (m_root t) k) as [m|] eqn:Hm; [by eapply Hfree | done].
  - intros Hfree k m Hm. specialize (Hfree k). by rewrite Hm in Hfree.
Qed.


(** ** The nodes Insert allocates *)

Lemma _Clear_unfold n : _Clear n = list_sum (map slot_nodes (children n)).
Proof. by destruct n. Qed.

Lemma list_sum_map_insert {A : Type} (f : A → nat) (l : list A) (i : nat) (old x : A) :
  l !! i = Some old →
  (list_sum (map f (<[i:=x]> l)) + f old = list_sum (map f l) + f x)%nat.
Proof.
  intros Hold. pose proof (lookup_lt_Some _ _ _ Hold) as Hlt.
  rewrite insert_take_drop by done.
  rewrite <- (take_drop_middle _ _ _ Hold) at 3.
  rewrite !map_app, !list_sum_app. cbn [map list_sum fold_right]. lia.
Qed.

Lemma _Clear_set_child n c child :
  length (children n) = N_NODE_CHILDREN →
  (_Clear (set_child n c child) + slot_nodes (GetChild n c) = _Clear n + S (_Clear child))%nat.
Proof.
  intros Hlen. rewrite <- GetChild_lookup_total by done.
  assert (slot c < length (children n))%nat as Hlt by (rewrite Hlen; apply slot_lt).
  destruct (lookup_lt_is_Some_2 _ _ Hlt) as [old Hold].
  rewrite (list_lookup_total_correct _ _ _ Hold).
  rewrite (_Clear_unfold n), (_Clear_unfold (set_child n c child)). cbn [set_child children].
  by rewrite (list_sum_map_insert slot_nodes _ _ old (Some child)).
Qed.

Lemma visited_Node_Clear k : visited (T:=T) Node_Clear k = [Node_Clear].
Proof. destruct k as [|c k]; cbn [visited]; [done|]. by rewrite GetChild_Node_Clear. Qed.

Lemma insert_key_nodes k : ∀ n v rk,
  wf_node n = true →
  (_Clear (insert_key n k v rk).1 + length (visited n k) = _Clear n + S (length k))%nat.
Proof.
  induction k as [|c k IH]; intros n v rk Hwf.
  - cbn [insert_key visited length]. unfold Insert_store.
    destruct (occupied n); cbn [fst]; rewrite ?_Clear_unfold; cbn [children]; lia.
  - cbn [insert_key]. specialize (IH _ v rk (wf_node_child n c Hwf)).
    destruct (insert_key _ k v rk) as [child ok]. cbn [fst] in *.
    pose proof Hwf as (Hlen & _ & _)%wf_node_unfold.
    pose proof (_Clear_set_child n c child Hlen) as Hset.
    cbn [visited length]. destruct (GetChild n c) as [next|]; cbn [default slot_nodes] in *.
    + simpl in IH. lia.
    + rewrite visited_Node_Clear, _Clear_Node_Clear in IH. cbn [length] in *. lia.
Qed.

(** X8.  [Insert] on a well-shaped trie allocates one node for each
    character of the key that had no node on the key's path, and none
    otherwise: the number of nodes [_Clear] will hand to [ats_free] grows by
    the length of the key less the part of its path that was there. *)
Theorem Insert_allocates_missing_nodes t key key_len k v rk ok t' :
  wf_node (m_root t) = true →
  key_of key key_len = Some k →
  Insert t key v rk key_len = Some (ok, t') →
  (freed (Clear t') + length (visited (m_root t) k) = freed (Clear t) + S (length k))%nat.
Proof.
  intros Hwf Hk. rewrite (Insert_key _ _ _ _ _ _ Hk). intros [= _ <-].
  rewrite !Clear_new. cbn [freed m_root]. by apply insert_key_nodes.
Qed.

(** ** The invariant *)

(** X9.  Every trie built from the constructor by [Insert] and [Clear],
    whatever the arguments of the calls that returned, is well-shaped (each
    node has its 256 slots and an occupied node holds a non-null value), and
    its value list holds the values of the occupied nodes, each as often as
    it is stored. *)
Theorem interface_keeps_invariant t :
  reachable t →
  wf_node (m_root t) = true ∧ m_value_list t ≡ₚ node_values (m_root t).
Proof. apply reachable_inv. Qed.

End TrieMoreFacts.

(** ** The further trie theorems on the example tries *)

Section TrieMoreExamples.

Import Trie TrieEntries Examples.

Lemma wf_two_keys rk_a rk_ab : wf_node (m_root (two_keys rk_a rk_ab)) = true.
Proof. apply reachable_inv, reachable_two_keys. Qed.

Lemma wf_one_key rk_a : wf_node (m_root (one_key rk_a)) = true.
Proof. apply reachable_inv, reachable_one_key. Qed.

Lemma Insert_one_key_ab rk_a rk_ab :
  Insert (one_key rk_a) (c_str "ab") 2%nat rk_ab (-1) = Some (true, two_keys rk_a rk_ab).
Proof. vm_compute. reflexivity. Qed.

Lemma Search_hit_witness :
  wf_node (m_root (two_keys 1 5)) = true
  ∧ key_of (c_str "ab") (-1) = Some [97; 98]
  ∧ Search (two_keys 1 5) (c_str "ab") (-1) = Some (Some 1%nat)
  ∧ ∃ p f,
      p `prefix_of` [97; 98] ∧ find_node (m_root (two_keys 1 5)) p = Some f
      ∧ occupied f = true ∧ value f = Some 1%nat
      ∧ ∀ q g, q `prefix_of` [97; 98] → find_node (m_root (two_keys 1 5)) q = Some g →
          occupied g = true →
          rank f <= rank g ∧ ((length p < length q)%nat → rank f < rank g).
Proof.
  assert (Search (two_keys 1 5) (c_str "ab") (-1) = Some (Some 1%nat)) as Hs
    by (vm_compute; reflexivity).
  split; [exact (wf_two_keys 1 5)|]. split; [reflexivity|]. split; [exact Hs|].
  exact (Search_hit (two_keys 1 5) (c_str "ab") (-1) [97; 98] 1%nat
           (wf_two_keys 1 5) eq_refl Hs).
Defined.

Lemma Search_miss_iff_witness :
  wf_node (m_root (two_keys 5 5)) = true
  ∧ key_of (c_str "x") (-1) = Some [120]
  ∧ (Search (two_keys 5 5) (c_str "x") (-1) = Some None
     ↔ ∀ p, p `prefix_of` [120] → stored (two_keys 5 5) p = false).
Proof.
  split; [exact (wf_two_keys 5 5)|]. split; [reflexivity|].
  exact (Search_miss_iff (two_keys 5 5) (c_str "x") (-1) [120] (wf_two_keys 5 5) eq_refl).
Defined.

Lemma Search_returns_held_value_witness :
  reachable (two_keys 5 5)
  ∧ Search (two_keys 5 5) (c_str "abc") (-1) = Some (Some 2%nat)
  ∧ 2%nat ∈ m_value_list (two_keys 5 5).
Proof.
  assert (Search (two_keys 5 5) (c_str "abc") (-1) = Some (Some 2%nat)) as Hs
    by (vm_compute; reflexivity).
  split; [exact (reachable_two_keys 5 5)|]. split; [exact Hs|].
  exact (Search_returns_held_value (two_keys 5 5) (c_str "abc") (-1) 2%nat
           (reachable_two_keys 5 5) Hs).
Defined.

Lemma Insert_succeeds_iff_fresh_witness :
  key_of (c_str "ab") (-1) = Some [97; 98]
  ∧ ∃ t', Insert (one_key 5) (c_str "ab") 2%nat 5 (-1)
          = Some (negb (stored (one_key 5) [97; 98]), t').
Proof.
  split; [reflexivity|].
  exact (Insert_succeeds_iff_fresh (one_key 5) (c_str "ab") (-1) [97; 98] 2%nat 5 eq_refl).
Defined.

Lemma Insert_updates_one_entry_witness :
  wf_node (m_root (one_key 5)) = true
  ∧ key_of (c_str "ab") (-1) = Some [97; 98]
  ∧ Insert (one_key 5) (c_str "ab") 2%nat 5 (-1) = Some (true, two_keys 5 5)
  ∧ entry (two_keys 5 5) [97; 98] = Some (Some 2%nat, 5)
  ∧ ∀ k', key_bytes k' ≠ key_bytes [97; 98] → entry (two_keys 5 5) k' = entry (one_key 5) k'.
Proof.
  split; [exact (wf_one_key 5)|]. split; [reflexivity|]. split; [exact (Insert_one_key_ab 5 5)|].
  exact (Insert_updates_one_entry (one_key 5) (c_str "ab") (-1) [97; 98] 2%nat 5 (two_keys 5 5)
           (wf_one_key 5) eq_refl (Insert_one_key_ab 5 5)).
Defined.

Lemma same_bytes_same_result_witness :
  key_of (Some [-61; 0]) (-1) = Some [-61]
  ∧ key_of (Some [195; 7]) 1 = Some [195]
  ∧ key_bytes [-61] = key_bytes [195]
  ∧ Search (two_keys 5 5) (Some [-61; 0]) (-1) = Search (two_keys 5 5) (Some [195; 7]) 1
  ∧ Insert (two_keys 5 5) (Some [-61; 0]) 3%nat 2 (-1)
    = Insert (two_keys 5 5) (Some [195; 7]) 3%nat 2 1.
Proof.
  split; [reflexivity|]. split; [reflexivity|]. split; [reflexivity|].
  exact (same_bytes_same_result (two_keys 5 5) (Some [-61; 0]) (-1) [-61] (Some [195; 7]) 1 [195]
           3%nat 2 eq_refl eq_refl eq_refl).
Defined.

Lemma Empty_iff_nothing_stored_witness :
  reachable (two_keys 5 5)
  ∧ (Empty (two_keys 5 5) = true ↔ ∀ k, stored (two_keys 5 5) k = false).
Proof.
  split; [exact (reachable_two_keys 5 5)|].
  exact (Empty_iff_nothing_stored (two_keys 5 5) (reachable_two_keys 5 5)).
Defined.

Lemma Insert_allocates_missing_nodes_witness :
  wf_node (m_root (one_key 5)) = true
  ∧ key_of (c_str "ab") (-1) = Some [97; 98]
  ∧ Insert (one_key 5) (c_str "ab") 2%nat 5 (-1) = Some (true, two_keys 5 5)
  ∧ (freed (Clear (two_keys 5 5)) + length (visited (m_root (one_key 5)) [97; 98]%Z)
     = freed (Clear (one_key 5)) + S (length [97; 98]%Z))%nat.
Proof.
  split; [exact (wf_one_key 5)|]. split; [reflexivity|]. split; [exact (Insert_one_key_ab 5 5)|].
  exact (Insert_allocates_missing_nodes (one_key 5) (c_str "ab") (-1) [97; 98] 2%nat 5 true
           (two_keys 5 5) (wf_one_key 5) eq_refl (Insert_one_key_ab 5 5)).
Defined.

Lemma interface_keeps_invariant_witness :
  reachable (two_keys 5 5)
  ∧ wf_node (m_root (two_keys 5 5)) = true
  ∧ m_value_list (two_keys 5 5) ≡ₚ node_values (m_root (two_keys 5 5)).
Proof.
  split; [exact (reachable_two_keys 5 5)|].
  exact (interface_keeps_invariant (two_keys 5 5) (reachable_two_keys 5 5)).
Defined.

End TrieMoreExamples.

(** * More facts about the chain of remap plugins *)

Section RemapMoreFacts.

Import RemapPlugins.
Context `{TSRemapStatus} {URL : Type} `{!URLString URL}.
Implicit Types (rp : RemapPlugins URL) (p : RemapPluginInst URL) (map : url_mapping URL).

(** ** One call, whatever is at the cursor *)

Lemma run_single_remap_no_plugin_step rp :
  get_plugin_instance (url_map rp) (_cur rp) = None →
  _cur (run_single_remap rp).2 = S (_cur rp)
  ∧ url_map (run_single_remap rp).2 = url_map rp
  ∧ history (run_single_remap rp).2 = history rp
  ∧ os_response_plugin_inst (run_single_remap rp).2 = os_response_plugin_inst rp
  ∧ ((run_single_remap rp).1 = false →
     (S (_cur rp) < plugin_instance_count (url_map rp))%nat
     ∧ remap_redirect (run_single_remap rp).2 = None).
Proof.
  intros Hget. unfold run_single_remap. rewrite Hget.
  set (rp1 := if Nat.eqb 0 (_cur rp) then _ else rp).
  assert (_cur rp1 = _cur rp ∧ url_map rp1 = url_map rp ∧ history rp1 = history rp
          ∧ os_response_plugin_inst rp1 = os_response_plugin_inst rp
          ∧ remap_redirect rp1 = remap_redirect rp)
    as (Hcur & Hmap & Hhist & Hos & Hred)
    by (unfold rp1; by destruct (Nat.eqb 0 (_cur rp))).
  clearbody rp1. cbn [remap_redirect set_cur].
  destruct (remap_redirect rp1) as [target|] eqn:Hr1; cbn [fst snd].
  - cbn [_cur url_map history os_response_plugin_inst set_cur].
    by rewrite Hcur, Hmap, Hhist, Hos.
  - set (count := (_ =? _) || (_ =? _)). set (stop := (_ =? _) || (_ =? _)).
    destruct count, stop;
      cbn [fst snd _cur url_map history os_response_plugin_inst remap_redirect set_cur
             set_rewritten];
      rewrite ?Hcur, ?Hmap, ?Hhist, ?Hos; try (split_and!; done);
      (destruct (Nat.leb_spec (plugin_instance_count (url_map rp)) (S (_cur rp)));
       cbn [fst snd _cur url_map history os_response_plugin_inst remap_redirect set_cur
              set_rewritten];
       rewrite ?Hcur, ?Hmap, ?Hhist, ?Hos; split_and!; try done; intros _; split; done).
Qed.

Lemma run_plugin_os rp p :
  os_response_plugin_inst (run_plugin rp p).2
  = if Nat.eqb (_cur rp) 0 then Some p else os_response_plugin_inst rp.
Proof.
  unfold run_plugin. destruct (p _) as [raw rri].
  by destruct (Nat.eqb (_cur rp) 0), (_ && _).
Qed.

Lemma run_single_remap_os rp p :
  get_plugin_instance (url_map rp) (_cur rp) = Some p →
  os_response_plugin_inst (run_single_remap rp).2
  = if Nat.eqb (_cur rp) 0 then Some p else os_response_plugin_inst rp.
Proof.
  intros Hget. unfold run_single_remap. rewrite Hget.
  set (rp1 := if Nat.eqb 0 (_cur rp) then _ else rp).
  assert (_cur rp1 = _cur rp ∧ os_response_plugin_inst rp1 = os_response_plugin_inst rp)
    as [Hcur Hos] by (unfold rp1; by destruct (Nat.eqb 0 (_cur rp))).
  clearbody rp1. rewrite <- Hcur, <- Hos, <- run_plugin_os.
  destruct (run_plugin rp1 p) as [status rp2]. cbn [fst snd remap_redirect set_cur].
  destruct (remap_redirect rp2); [done|].
  set (count := (_ =? _) || (_ =? _)). set (stop := (_ =? _) || (_ =? _)).
  destruct count, stop; cbn [_cur set_rewritten]; try done; by destruct (Nat.leb _ _).
Qed.

Lemma run_single_remap_step rp :
  _cur (run_single_remap rp).2 = S (_cur rp)
  ∧ url_map (run_single_remap rp).2 = url_map rp
  ∧ history (run_single_remap rp).2
    = history rp
      ++ match get_plugin_instance (url_map rp) (_cur rp) with
         | Some p => [{| inv_retcode := (p (plugin_input rp)).1;
                         inv_redirect := redirect (p (plugin_input rp)).2 |}]
         | None => []
         end
  ∧ os_response_plugin_inst (run_single_remap rp).2
    = match get_plugin_instance (url_map rp) (_cur rp) with
      | Some p => if Nat.eqb (_cur rp) 0 then Some p else os_response_plugin_inst rp
      | None => os_response_plugin_inst rp
      end
  ∧ ((run_single_remap rp).1 = false →
     (S (_cur rp) < plugin_instance_count (url_map rp))%nat
     ∧ remap_redirect (run_single_remap rp).2 = None).
Proof.
  destruct (get_plugin_instance (url_map rp) (_cur rp)) as [p|] eqn:Hget.
  - destruct (p (plugin_input rp)) as [raw rri] eqn:Hp.
    destruct (run_single_remap_plugin rp p raw rri Hget Hp)
      as (Hcur & _ & Hmap & _ & Hhist & Hred & Hz).
    split_and!; [done | done | done | by apply run_single_remap_os |].
    rewrite Hz, Hred. destruct (if _ && _ then Some _ else remap_redirect rp); [done|].
    intros Hfalse. split; [|done].
    apply orb_false_iff in Hfalse as [_ Hleb]. apply Nat.leb_gt in Hleb. lia.
  - destruct (run_single_remap_no_plugin_step rp Hget) as (? & ? & ? & ? & ?).
    rewrite app_nil_r. done.
Qed.

(** X10.  When [run_single_remap] returns [false], there is a plugin at the
    new cursor and no redirect target is held: the driver is called back
    only when there is something more to do. *)
Theorem continue_means_plugin_left rp :
  (run_single_remap rp).1 = false →
  is_Some (get_plugin_instance (url_map (run_single_remap rp).2) (_cur (run_single_remap rp).2))
  ∧ remap_redirect (run_single_remap rp).2 = None.
Proof.
  intros Hz. destruct (run_single_remap_step rp) as (Hcur & Hmap & _ & _ & Hcont).
  destruct (Hcont Hz) as [Hlt Hred]. split; [|done].
  rewrite Hcur, Hmap. by apply lookup_lt_is_Some_2.
Qed.

(** ** The end of the chain *)

Lemma run_single_remap_done_at_end rp :
  (plugin_instance_count (url_map rp) ≤ S (_cur rp))%nat → (run_single_remap rp).1 = true.
Proof.
  intros Hle. destruct (run_single_remap_step rp) as (_ & _ & _ & _ & Hcont).
  destruct (run_single_remap rp).1; [done|]. destruct (Hcont eq_refl). lia.
Qed.

Lemma run_calls_last n : ∀ rp,
  (plugin_instance_count (url_map rp) ≤ _cur rp + S n)%nat →
  last (run_calls (S n) rp).1 = Some true.
Proof.
  induction n as [|n IH]; intros rp Hle; rewrite run_calls_S; cbn [fst].
  - cbn [run_calls fst last]. rewrite run_single_remap_done_at_end; [done | lia].
  - destruct (run_single_remap_step rp) as (Hcur & Hmap & _).
    rewrite last_cons, IH; [done|]. rewrite Hcur, Hmap. lia.
Qed.

(** X11.  Started on a route, the executor reports done within as many calls
    as the route has plugins, and within one call when it has none: among
    the first [max 1 count] calls of [run_single_remap], the last one at the
    latest returns [true]. *)
Theorem chain_done_within_plugin_count map (request_url : URL) :
  last (run_calls (Nat.max 1 (plugin_instance_count map)) (RemapPlugins_new map request_url)).1
  = Some true.
Proof.
  destruct (plugin_instance_count map) as [|count] eqn:Hcount.
  - apply (run_calls_last 0). cbn [RemapPlugins_new url_map _cur]. lia.
  - replace (Nat.max 1 (S count)) with (S count) by lia.
    apply run_calls_last. cbn [RemapPlugins_new url_map _cur]. lia.
Qed.

(** ** What a chain keeps *)

Lemma chain_inv map (request_url : URL) rp zret :
  chain (RemapPlugins_new map request_url) rp zret →
  url_map rp = map
  ∧ (1 ≤ _cur rp)%nat
  ∧ length (history rp) = Nat.min (_cur rp) (plugin_instance_count map)
  ∧ (zret = false → (_cur rp < plugin_instance_count map)%nat)
  ∧ os_response_plugin_inst rp = head (plugin_inst_list map)
  ∧ ∀ (i : nat) inv, history rp !! i = Some inv →
      ∃ p rri, plugin_inst_list map !! i = Some p
               ∧ inv = {| inv_retcode := (p rri).1; inv_redirect := redirect (p rri).2 |}.
Proof.
  induction 1 as [|rp _ (Hmap & Hcur & Hlen & Hlt & Hos & Hin)].
  - destruct (run_single_remap_step (RemapPlugins_new map request_url))
      as (Hc & Hm & Hh & Ho & Hcont).
    rewrite Hc, Hm, Hh, Ho. cbn [RemapPlugins_new url_map _cur history os_response_plugin_inst
                                   app Nat.eqb] in *.
    unfold get_plugin_instance, plugin_instance_count in *. rewrite head_lookup.
    split_and!; [done | lia | | intros [Hz _]%Hcont; lia | by destruct (_ !! 0%nat) |].
    + destruct (plugin_inst_list map !! 0%nat) as [p|] eqn:Hp; cbn [length].
      * apply lookup_lt_Some in Hp. lia.
      * apply lookup_ge_None in Hp. lia.
    + intros i inv. destruct (plugin_inst_list map !! 0%nat) as [p|] eqn:Hp; [|done].
      destruct i as [|i]; [|done]. intros [= <-]. by exists p, (plugin_input (RemapPlugins_new map request_url)).
  - specialize (Hlt eq_refl).
    destruct (run_single_remap_step rp) as (Hc & Hm & Hh & Ho & Hcont).
    rewrite Hc, Hm, Hh, Ho, Hmap. unfold get_plugin_instance, plugin_instance_count in *.
    destruct (lookup_lt_is_Some_2 (plugin_inst_list map) (_cur rp) Hlt) as [p Hp].
    rewrite Hmap in Hcont. rewrite Hp.
    assert (length (history rp) = _cur rp) as Hlen' by lia.
    split_and!; [done | lia | | intros [Hz _]%Hcont; lia | |].
    + rewrite length_app. cbn [length]. lia.
    + destruct (_cur rp); [lia | done].
    + intros i inv Hi. destruct (decide (i < length (history rp))%nat) as [Hl|Hge].
      * rewrite lookup_app_l in Hi by done. by apply Hin.
      * rewrite lookup_app_r in Hi by lia.
        destruct (i - length (history rp))%nat as [|d] eqn:Hd; [|done].
        injection Hi as <-. assert (i = _cur rp) as -> by lia. by exists p, (plugin_input rp).
Qed.

(** X12.  After every call of a chain, [os_response_plugin_inst] is the first
    plugin of the route ([nullptr] when the route has none): the first call
    records it, and no later call changes it. *)
Theorem first_plugin_recorded map (request_url : URL) rp zret :
  chain (RemapPlugins_new map request_url) rp zret →
  os_response_plugin_inst rp = head (plugin_inst_list map).
Proof. intros Hchain. by apply chain_inv in Hchain as (_ & _ & _ & _ & Hos & _). Qed.

(** X13.  After every call of a chain the plugins called so far are the
    first ones of the route, in its order and each once: the [i]-th call of
    [doRemap] was a call of the [i]-th plugin, and there are as many as the
    cursor counts, the plugins of the route at most. *)
Theorem plugins_called_in_order map (request_url : URL) rp zret :
  chain (RemapPlugins_new map request_url) rp zret →
  length (history rp) = Nat.min (_cur rp) (plugin_instance_count map)
  ∧ ∀ (i : nat) inv, history rp !! i = Some inv →
      ∃ p rri, plugin_inst_list map !! i = Some p
               ∧ inv = {| inv_retcode := (p rri).1; inv_redirect := redirect (p rri).2 |}.
Proof. intros Hchain. by apply chain_inv in Hchain as (_ & _ & Hlen & _ & _ & Hin). Qed.

(** ** A route without plugins *)

(** X14.  On a route without plugins the first call applies the base rewrite
    of the route to the URL of the request and returns [true]: nothing is
    counted, no redirect target is set and no plugin is recorded. *)
Theorem no_plugin_route_does_base_rewrite map (request_url : URL) :
  codes_ok →
  plugin_inst_list map = [] →
  run_single_remap (RemapPlugins_new map request_url)
  = (true, {| _cur := 1; _rewritten := 0;
              _request_url := url_rewrite_remap_request map request_url;
              url_map := map; remap_redirect := None; os_response_plugin_inst := None;
              history := [] |}).
Proof.
  intros (Hd & Hs & Hds & _)%codes_ok_distinct Hnil.
  unfold run_single_remap, RemapPlugins_new, get_plugin_instance, plugin_instance_count.
  cbn [url_map _cur Nat.eqb set_request_url _request_url _rewritten remap_redirect
         os_response_plugin_inst history].
  rewrite Hnil. cbn [lookup list_lookup set_cur remap_redirect length Nat.leb _cur].
  rewrite (proj2 (Z.eqb_neq TSREMAP_DID_REMAP_STOP TSREMAP_NO_REMAP)) by done.
  rewrite (proj2 (Z.eqb_neq TSREMAP_DID_REMAP TSREMAP_NO_REMAP)) by done.
  rewrite (proj2 (Z.eqb_neq TSREMAP_NO_REMAP_STOP TSREMAP_NO_REMAP)) by done.
  reflexivity.
Qed.

(** ** Stop codes and error codes *)

(** X15.  When the plugin at the cursor asks to stop, by
    [TSREMAP_NO_REMAP_STOP] or by [TSREMAP_DID_REMAP_STOP], and no redirect
    is captured, the call returns [true] however many plugins are left; the
    rewrite counter goes up by one for [TSREMAP_DID_REMAP_STOP] and stays
    for [TSREMAP_NO_REMAP_STOP]. *)
Theorem stop_code_ends_chain rp p raw rri :
  codes_ok →
  get_plugin_instance (url_map rp) (_cur rp) = Some p →
  p (plugin_input rp) = (raw, rri) →
  remap_redirect rp = None →
  normalized raw = TSREMAP_NO_REMAP_STOP
  ∨ (normalized raw = TSREMAP_DID_REMAP_STOP ∧ redirect rri = 0) →
  (run_single_remap rp).1 = true
  ∧ remap_redirect (run_single_remap rp).2 = None
  ∧ _rewritten (run_single_remap rp).2
    = if normalized raw =? TSREMAP_DID_REMAP_STOP then S (_rewritten rp) else _rewritten rp.
Proof.
  intros (Hd & Hs & Hds & Hdn & Hdd & Hnd)%codes_ok_distinct Hget Hp Hred Hstop.
  destruct (run_single_remap_plugin rp p raw rri Hget Hp) as (_ & Hrew & _ & _ & _ & Hr & Hz).
  rewrite Hrew, Hr, Hz, Hred. clear Hrew Hr Hz.
  destruct Hstop as [-> | [-> ->]].
  - rewrite (proj2 (Z.eqb_neq TSREMAP_DID_REMAP TSREMAP_NO_REMAP_STOP)) by done.
    rewrite (proj2 (Z.eqb_neq TSREMAP_DID_REMAP_STOP TSREMAP_NO_REMAP_STOP)) by done.
    rewrite (proj2 (Z.eqb_neq TSREMAP_NO_REMAP_STOP TSREMAP_DID_REMAP_STOP)) by done.
    by rewrite Z.eqb_refl.
  - rewrite !Z.eqb_refl. cbn [negb andb orb]. rewrite andb_false_r.
    by rewrite orb_true_r, bool_decide_eq_true_2.
Qed.

(** X16.  A negative status is an error code that changes nothing in the
    chain: whatever the plugin did to the [redirect] flag, no redirect is
    captured, the rewrite counter stays, and the call returns [true] exactly
    when no plugin is left. *)
Theorem error_code_goes_on rp p raw rri :
  codes_ok →
  get_plugin_instance (url_map rp) (_cur rp) = Some p →
  p (plugin_input rp) = (raw, rri) →
  remap_redirect rp = None →
  raw < 0 →
  remap_redirect (run_single_remap rp).2 = None
  ∧ _rewritten (run_single_remap rp).2 = _rewritten rp
  ∧ (run_single_remap rp).1 = Nat.leb (plugin_instance_count (url_map rp)) (S (_cur rp)).
Proof.
  intros (Hd & Hs & Hds & _)%codes_ok_distinct Hget Hp Hred Hneg.
  apply (run_single_remap_other_status rp p raw rri Hget Hp); rewrite ?normalized_neg; done.
Qed.

(** ** The URL from one plugin to the next *)

(** X17.  Two calls in a row, with plugins at both cursors: the second plugin
    is given the URL as the first one left it, with the [redirect] flag
    cleared and no base rewrite in between, and the request keeps the URL as
    the second plugin leaves it. *)
Theorem url_passes_to_next_plugin rp p1 p2 raw rri :
  get_plugin_instance (url_map rp) (_cur rp) = Some p1 →
  get_plugin_instance (url_map rp) (S (_cur rp)) = Some p2 →
  p1 (plugin_input rp) = (raw, rri) →
  plugin_input (run_single_remap rp).2 = {| requestUrl := requestUrl rri; redirect := 0 |}
  ∧ history (run_single_remap (run_single_remap rp).2).2
    = history rp
      ++ [{| inv_retcode := raw; inv_redirect := redirect rri |};
          {| inv_retcode := (p2 {| requestUrl := requestUrl rri; redirect := 0 |}).1;
             inv_redirect := redirect (p2 {| requestUrl := requestUrl rri; redirect := 0 |}).2 |}]
  ∧ _request_url (run_single_remap (run_single_remap rp).2).2
    = requestUrl (p2 {| requestUrl := requestUrl rri; redirect := 0 |}).2.
Proof.
  intros Hget1 Hget2 Hp1.
  destruct (run_single_remap_plugin rp p1 raw rri Hget1 Hp1)
    as (Hcur & _ & Hmap & Hurl & Hhist & _).
  assert (plugin_input (run_single_remap rp).2
          = {| requestUrl := requestUrl rri; redirect := 0 |}) as Hin
    by (unfold plugin_input; rewrite Hcur, Hurl; done).
  split; [done|].
  destruct (p2 {| requestUrl := requestUrl rri; redirect := 0 |}) as [raw2 rri2] eqn:Hp2.
  rewrite <- Hcur, <- Hmap in Hget2. rewrite <- Hin in Hp2.
  destruct (run_single_remap_plugin _ p2 raw2 rri2 Hget2 Hp2)
    as (_ & _ & _ & Hurl2 & Hhist2 & _).
  rewrite Hhist2, Hurl2, Hhist, <- app_assoc. done.
Qed.

End RemapMoreFacts.

(** ** The further chain theorems on the example routes *)

Section RemapMoreExamples.

Import RemapPlugins Examples.
#[local] Existing Instance released_codes.
#[local] Existing Instance text_url.

Lemma continue_means_plugin_left_witness :
  (run_single_remap rewrite_then_redirect).1 = false
  ∧ is_Some (get_plugin_instance (url_map (run_single_remap rewrite_then_redirect).2)
               (_cur (run_single_remap rewrite_then_redirect).2))
  ∧ remap_redirect (run_single_remap rewrite_then_redirect).2 = None.
Proof.
  assert ((run_single_remap rewrite_then_redirect).1 = false) as Hz
    by (vm_compute; reflexivity).
  split; [exact Hz|].
  exact (continue_means_plugin_left rewrite_then_redirect Hz).
Defined.

Lemma first_plugin_recorded_witness :
  chain (RemapPlugins_new (route [answers 1 0; answers 3 1; answers 1 0]) [47; 97])
    (run_single_remap
       (RemapPlugins_new (route [answers 1 0; answers 3 1; answers 1 0]) [47; 97])).2
    (run_single_remap
       (RemapPlugins_new (route [answers 1 0; answers 3 1; answers 1 0]) [47; 97])).1
  ∧ os_response_plugin_inst
      (run_single_remap
         (RemapPlugins_new (route [answers 1 0; answers 3 1; answers 1 0]) [47; 97])).2
    = head (plugin_inst_list (route [answers 1 0; answers 3 1; answers 1 0])).
Proof.
  split; [apply chain_first|].
  exact (first_plugin_recorded (route [answers 1 0; answers 3 1; answers 1 0]) [47; 97] _ _
           (chain_first _)).
Defined.

Lemma plugins_called_in_order_witness :
  chain (RemapPlugins_new (route [answers 1 0; answers 3 1; answers 1 0]) [47; 97])
    (run_single_remap
       (RemapPlugins_new (route [answers 1 0; answers 3 1; answers 1 0]) [47; 97])).2
    (run_single_remap
       (RemapPlugins_new (route [answers 1 0; answers 3 1; answers 1 0]) [47; 97])).1
  ∧ length (history
              (run_single_remap
                 (RemapPlugins_new (route [answers 1 0; answers 3 1; answers 1 0])
                    [47; 97])).2)
    = Nat.min
        (_cur (run_single_remap
                 (RemapPlugins_new (route [answers 1 0; answers 3 1; answers 1 0])
                    [47; 97])).2)
        (plugin_instance_count (route [answers 1 0; answers 3 1; answers 1 0]))
  ∧ ∀ (i : nat) inv,
      history
        (run_single_remap
           (RemapPlugins_new (route [answers 1 0; answers 3 1; answers 1 0]) [47; 97])).2
        !! i = Some inv →
      ∃ p rri,
        plugin_inst_list (route [answers 1 0; answers 3 1; answers 1 0]) !! i = Some p
        ∧ inv = {| inv_retcode := (p rri).1; inv_redirect := redirect (p rri).2 |}.
Proof.
  split; [apply chain_first|].
  exact (plugins_called_in_order (route [answers 1 0; answers 3 1; answers 1 0]) [47; 97] _ _
           (chain_first _)).
Defined.

Lemma no_plugin_route_does_base_rewrite_witness :
  codes_ok
  ∧ plugin_inst_list (route []) = []
  ∧ run_single_remap (RemapPlugins_new (route []) [47; 97])
    = (true, {| _cur := 1; _rewritten := 0;
                _request_url := url_rewrite_remap_request (route []) [47; 97];
                url_map := route []; remap_redirect := None;
                os_response_plugin_inst := None; history := [] |}).
Proof.
  split; [exact released_codes_ok|]. split; [reflexivity|].
  exact (no_plugin_route_does_base_rewrite (route []) [47; 97] released_codes_ok eq_refl).
Defined.

Lemma stop_code_ends_chain_witness :
  codes_ok
  ∧ get_plugin_instance
      (url_map (RemapPlugins_new (route [answers 3 0; answers 1 0]) [47; 97]))
      (_cur (RemapPlugins_new (route [answers 3 0; answers 1 0]) [47; 97]))
    = Some (answers 3 0)
  ∧ answers 3 0 (plugin_input (RemapPlugins_new (route [answers 3 0; answers 1 0]) [47; 97]))
    = (3, {| requestUrl := [47; 116; 47; 97]; redirect := 0 |})
  ∧ remap_redirect (RemapPlugins_new (route [answers 3 0; answers 1 0]) [47; 97]) = None
  ∧ (normalized 3 = TSREMAP_NO_REMAP_STOP
     ∨ (normalized 3 = TSREMAP_DID_REMAP_STOP
        ∧ redirect {| requestUrl := [47; 116; 47; 97]; redirect := 0 |} = 0))
  ∧ (run_single_remap (RemapPlugins_new (route [answers 3 0; answers 1 0]) [47; 97])).1 = true
  ∧ remap_redirect
      (run_single_remap (RemapPlugins_new (route [answers 3 0; answers 1 0]) [47; 97])).2
    = None
  ∧ _rewritten
      (run_single_remap (RemapPlugins_new (route [answers 3 0; answers 1 0]) [47; 97])).2
    = if normalized 3 =? TSREMAP_DID_REMAP_STOP
      then S (_rewritten (RemapPlugins_new (route [answers 3 0; answers 1 0]) [47; 97]))
      else _rewritten (RemapPlugins_new (route [answers 3 0; answers 1 0]) [47; 97]).
Proof.
  assert (normalized 3 = TSREMAP_NO_REMAP_STOP
          ∨ (normalized 3 = TSREMAP_DID_REMAP_STOP
             ∧ redirect {| requestUrl := [47; 116; 47; 97]; redirect := 0 |} = 0)) as Hstop
    by (right; split; reflexivity).
  split; [exact released_codes_ok|]. split; [reflexivity|]. split; [reflexivity|].
  split; [reflexivity|]. split; [exact Hstop|].
  exact (stop_code_ends_chain (RemapPlugins_new (route [answers 3 0; answers 1 0]) [47; 97])
           (answers 3 0) 3 {| requestUrl := [47; 116; 47; 97]; redirect := 0 |}
           released_codes_ok eq_refl eq_refl eq_refl Hstop).
Defined.

Lemma error_code_goes_on_witness :
  codes_ok
  ∧ get_plugin_instance
      (url_map (RemapPlugins_new (route [answers (-1) 1; answers 1 0]) [47; 97]))
      (_cur (RemapPlugins_new (route [answers (-1) 1; answers 1 0]) [47; 97]))
    = Some (answers (-1) 1)
  ∧ answers (-1) 1
      (plugin_input (RemapPlugins_new (route [answers (-1) 1; answers 1 0]) [47; 97]))
    = (-1, {| requestUrl := [47; 116; 47; 97]; redirect := 1 |})
  ∧ remap_redirect (RemapPlugins_new (route [answers (-1) 1; answers 1 0]) [47; 97]) = None
  ∧ -1 < 0
  ∧ remap_redirect
      (run_single_remap (RemapPlugins_new (route [answers (-1) 1; answers 1 0]) [47; 97])).2
    = None
  ∧ _rewritten
      (run_single_remap (RemapPlugins_new (route [answers (-1) 1; answers 1 0]) [47; 97])).2
    = _rewritten (RemapPlugins_new (route [answers (-1) 1; answers 1 0]) [47; 97])
  ∧ (run_single_remap (RemapPlugins_new (route [answers (-1) 1; answers 1 0]) [47; 97])).1
    = Nat.leb
        (plugin_instance_count
           (url_map (RemapPlugins_new (route [answers (-1) 1; answers 1 0]) [47; 97])))
        (S (_cur (RemapPlugins_new (route [answers (-1) 1; answers 1 0]) [47; 97]))).
Proof.
  assert (-1 < 0) as Hneg by lia.
  split; [exact released_codes_ok|]. split; [reflexivity|]. split; [reflexivity|].
  split; [reflexivity|]. split; [exact Hneg|].
  exact (error_code_goes_on (RemapPlugins_new (route [answers (-1) 1; answers 1 0]) [47; 97])
           (answers (-1) 1) (-1) {| requestUrl := [47; 116; 47; 97]; redirect := 1 |}
           released_codes_ok eq_refl eq_refl eq_refl Hneg).
Defined.

Lemma url_passes_to_next_plugin_witness :
  get_plugin_instance
    (url_map (RemapPlugins_new (route [appends 98 1 0; appends 99 0 0]) [47; 97]))
    (_cur (RemapPlugins_new (route [appends 98 1 0; appends 99 0 0]) [47; 97]))
  = Some (appends 98 1 0)
  ∧ get_plugin_instance
      (url_map (RemapPlugins_new (route [appends 98 1 0; appends 99 0 0]) [47; 97]))
      (S (_cur (RemapPlugins_new (route [appends 98 1 0; appends 99 0 0]) [47; 97])))
    = Some (appends 99 0 0)
  ∧ appends 98 1 0
      (plugin_input (RemapPlugins_new (route [appends 98 1 0; appends 99 0 0]) [47; 97]))
    = (1, {| requestUrl := [47; 116; 47; 97; 98]; redirect := 0 |})
  ∧ _request_url
      (run_single_remap
         (run_single_remap
            (RemapPlugins_new (route [appends 98 1 0; appends 99 0 0]) [47; 97])).2).2
    = [47; 116; 47; 97; 98; 99].
Proof.
  split; [reflexivity|]. split; [reflexivity|]. split; [reflexivity|].
  pose proof (url_passes_to_next_plugin
                (RemapPlugins_new (route [appends 98 1 0; appends 99 0 0]) [47; 97])
                (appends 98 1 0) (appends 99 0 0) 1
                {| requestUrl := [47; 116; 47; 97; 98]; redirect := 0 |}
                eq_refl eq_refl eq_refl) as (_ & _ & Hurl).
  rewrite Hurl. reflexivity.
Defined.

End RemapMoreExamples.

(** * Insert and the searches of other keys *)

Section TrieFrame.

Import Trie TrieEntries.
Context {T : Type}.
Implicit Types (n child : Node T) (t : Trie T) (k q : list Z) (v : T).

#[local] Opaque N_NODE_CHILDREN.

Lemma candidate_rule_head (a b : option (Node T)) n n' :
  node_head <$> a = node_head <$> b → node_head n = node_head n' →
  node_head <$> candidate_rule a n = node_head <$> candidate_rule b n'.
Proof.
  intros Hab Hn.
  assert (occupied n = occupied n' ∧ rank n = rank n') as [Hocc Hrk]
    by (unfold node_head in Hn; split; congruence).
  unfold candidate_rule. destruct a as [f|], b as [g|]; simpl in Hab; try done.
  - assert (rank f = rank g) as Hfr by (unfold node_head in Hab; congruence).
    rewrite Hocc, Hrk, Hfr.
    destruct (occupied n' && (rank n' <=? rank g)); simpl; [by rewrite Hn | done].
  - rewrite Hocc. destruct (occupied n'); simpl; [by rewrite Hn | done].
Qed.

Lemma fold_candidate_head (l : list (Node T)) : ∀ a b,
  node_head <$> a = node_head <$> b →
  node_head <$> fold_left candidate_rule l a = node_head <$> fold_left candidate_rule l b.
Proof.
  induction l as [|x l IH]; intros a b Hab; cbn [fold_left]; [done|].
  by apply IH, candidate_rule_head.
Qed.

Lemma found_value_head (a b : option (Node T)) :
  node_head <$> a = node_head <$> b → found_value a = found_value b.
Proof. destruct a, b; simpl; try done. unfold node_head. congruence. Qed.

Lemma insert_key_search_other k : ∀ n q v rk (a b : option (Node T)),
  wf_node n = true →
  ¬ key_bytes k `prefix_of` key_bytes q →
  node_head <$> a = node_head <$> b →
  node_head <$> fold_left candidate_rule (visited (insert_key n k v rk).1 q) a
  = node_head <$> fold_left candidate_rule (visited n q) b.
Proof.
  induction k as [|c k IH]; intros n q v rk a b Hwf Hpre Hab.
  - destruct Hpre. apply prefix_nil.
  - cbn [insert_key]. specialize (IH (default Node_Clear (GetChild n c))).
    destruct (insert_key _ k v rk) as [child ok] eqn:Hins. cbn [fst].
    pose proof Hwf as (Hlen & _ & _)%wf_node_unfold.
    assert (node_head <$> candidate_rule a (set_child n c child)
            = node_head <$> candidate_rule b n) as Hstep
      by (by apply candidate_rule_head).
    destruct q as [|c' q]; cbn [visited fold_left]; [done|].
    destruct (decide (slot c = slot c')) as [Heq|Hslot].
    + rewrite <- (GetChild_slot _ c c'), <- (GetChild_slot n c c') by done.
      rewrite GetChild_set_child by done.
      specialize (IH q v rk (candidate_rule a (set_child n c child)) (candidate_rule b n)
                    (wf_node_child n c Hwf)).
      rewrite Hins in IH. cbn [fst] in IH.
      assert (¬ key_bytes k `prefix_of` key_bytes q) as Hpre'.
      { intros Hp. apply Hpre. unfold key_bytes in *. cbn [fmap list_fmap].
        rewrite Heq. by apply prefix_cons. }
      rewrite (IH Hpre' Hstep).
      destruct (GetChild n c) as [next|]; cbn [default from_option id]; [done|].
      rewrite visited_Node_Clear. cbn [fold_left]. unfold candidate_rule at 1.
      cbn [occupied Node_Clear andb]. by destruct (candidate_rule b n).
    + rewrite GetChild_set_child_ne by done.
      destruct (GetChild n c') as [next|]; [|done]. by apply fold_candidate_head.
Qed.

(** X18.  [Insert] of a key K on a well-shaped trie does not change what
    [Search] returns for any key that K is not a prefix of, the bytes of the
    keys compared. *)
Theorem Insert_leaves_other_searches t key key_len k v rk ok t' key2 key_len2 q :
  wf_node (m_root t) = true →
  key_of key key_len = Some k →
  Insert t key v rk key_len = Some (ok, t') →
  key_of key2 key_len2 = Some q →
  ¬ key_bytes k `prefix_of` key_bytes q →
  Search t' key2 key_len2 = Search t key2 key_len2.
Proof.
  intros Hwf Hk Hins Hq Hpre.
  rewrite (Insert_key _ _ _ _ _ _ Hk) in Hins. injection Hins as _ <-.
  rewrite !(Search_key _ _ _ _ Hq). cbn [m_root]. f_equal.
  by apply found_value_head, insert_key_search_other.
Qed.

End TrieFrame.

Section TrieFrameExamples.

Import Trie TrieEntries Examples.

Lemma Insert_leaves_other_searches_witness :
  wf_node (m_root (one_key 5)) = true
  ∧ key_of (c_str "ab") (-1) = Some [97; 98]
  ∧ Insert (one_key 5) (c_str "ab") 2%nat 5 (-1) = Some (true, two_keys 5 5)
  ∧ key_of (c_str "ac") (-1) = Some [97; 99]
  ∧ ¬ key_bytes [97; 98] `prefix_of` key_bytes [97; 99]
  ∧ Search (two_keys 5 5) (c_str "ac") (-1) = Search (one_key 5) (c_str "ac") (-1).
Proof.
  assert (¬ key_bytes [97; 98] `prefix_of` key_bytes [97; 99]) as Hpre.
  { intros [s Hs]. vm_compute in Hs. discriminate Hs. }
  split; [exact (wf_one_key 5)|]. split; [reflexivity|]. split; [exact (Insert_one_key_ab 5 5)|].
  split; [reflexivity|]. split; [exact Hpre|].
  exact (Insert_leaves_other_searches (one_key 5) (c_str "ab") (-1) [97; 98] 2%nat 5 true
           (two_keys 5 5) (c_str "ac") (-1) [97; 99]
           (wf_one_key 5) eq_refl (Insert_one_key_ab 5 5) eq_refl Hpre).
Defined.

End TrieFrameExamples.
